(** * The ddd toolkit: validated objects, domain events and the
    event-sourcing core of the aggregate root

    A shallow embedding of the TypeScript sources.

    - JavaScript values are an inductive type; class instances carry the
      address of the object they denote, so that [===] on two instances is
      a comparison of addresses.
    - A call that can [throw] returns a [Completion]: either the value, or
      what was thrown.
    - Domain events and arrays are mutable and shared, so they live in a
      heap: an event is named by its address, and so is the array that an
      aggregate keeps as its ledger.
    - An object lists its own properties as JavaScript does: array indices
      first, ascending, then the other keys in the order of creation.
    - Abstract hooks ([validate], [apply]) and collaborators that the
      package imports from elsewhere ([Guard.isEmpty], the [Event] base
      class, [convertPropsToObject], the event bus) are variables of the
      section that uses them. *)

From Stdlib Require Import ZArith Lia DecimalString.
From stdpp Require Import base option list strings pretty sorting.

Local Open Scope string_scope.
Local Open Scope list_scope.

(** ** Exceptions and completions *)

(** The three exception classes of [@luccazx12/exceptions-base] that the
    sources instantiate, and any further subclass of [ExceptionBase] that a
    [validate] hook may record. *)
Inductive ExceptionKind :=
| ArgumentNotProvidedException
| ArgumentInvalidException
| ArgumentOutOfRangeException
| OtherException (name : string).

Record ExceptionBase := MkException {
  exn_kind : ExceptionKind;
  exn_message : string
}.

#[global] Instance ExceptionKind_eq_dec : EqDecision ExceptionKind.
Proof. solve_decision. Defined.

#[global] Instance ExceptionBase_eq_dec : EqDecision ExceptionBase.
Proof. solve_decision. Defined.

(** What a [throw] statement, or the runtime, can raise in these sources. *)
Inductive Thrown :=
| ThrowException (e : ExceptionBase)        (* [throw new XException(msg)] *)
| ThrowErrors (errs : list ExceptionBase)   (* [throw this.errors] *)
| TypeError.                                (* raised by the runtime *)

Inductive Completion (A : Type) :=
| Normal (a : A)
| Abrupt (t : Thrown).

Arguments Normal {A} a.
Arguments Abrupt {A} t.

#[global] Instance Completion_ret : MRet Completion := fun A a => Normal a.

#[global] Instance Completion_bind : MBind Completion := fun A B f m =>
  match m with
  | Normal a => f a
  | Abrupt t => Abrupt t
  end.

Definition is_normal {A} (c : Completion A) : bool :=
  match c with Normal _ => true | Abrupt _ => false end.

(** ** JavaScript values *)

(** Addresses of heap objects. *)
Abbreviation loc := nat (only parsing).

(** Plain data is kept by value.  An instance of a [ValueObject] subclass
    is kept with its address [vo_self] and its two fields, [props] and
    [errors]; [vo_armed] records whether [isValid] has attached [equals]
    and [unpack] to it.  Numbers only occur as opaque scalars here, so an
    integer stands for them. *)
#[warnings="-register-all"]
Inductive JsValue :=
| JUndefined
| JNull
| JBoolean (b : bool)
| JNumber (n : Z)
| JString (s : string)
| JDate (ms : Z)
| JObject (fields : list (string * JsValue))
| JArray (items : list JsValue)
| JInstance (o : ValueObjectInstance)
with ValueObjectInstance :=
| MkValueObject (vo_self : loc) (vo_props : JsValue)
    (vo_errors : list ExceptionBase) (vo_armed : bool).

(** [typeof v] *)
Definition typeof (v : JsValue) : string :=
  match v with
  | JUndefined => "undefined"
  | JBoolean _ => "boolean"
  | JNumber _ => "number"
  | JString _ => "string"
  | JNull | JDate _ | JObject _ | JArray _ | JInstance _ => "object"
  end.

(** The first binding of a key is the one an object holds. *)
Fixpoint lookup_field (k : string) (fields : list (string * JsValue))
  : option JsValue :=
  match fields with
  | [] => None
  | (k', v) :: rest => if decide (k = k') then Some v else lookup_field k rest
  end.

(** [Object.keys(v)]: the own enumerable property names.  It throws on
    [undefined] and [null]; a string or an array has its indices. *)
Definition Object_keys (v : JsValue) : Completion (list string) :=
  match v with
  | JUndefined | JNull => Abrupt TypeError
  | JBoolean _ | JNumber _ | JDate _ => Normal []
  | JString s => Normal (pretty <$> seq 0 (String.length s))
  | JArray items => Normal (pretty <$> seq 0 (length items))
  | JObject fields => Normal (remove_dups (fields.*1))
  | JInstance (MkValueObject _ _ _ armed) =>
      Normal (["errors"; "props"] ++ if armed then ["equals"; "unpack"] else [])
  end.

(** [Object.prototype.hasOwnProperty.call(v, k)] *)
Definition hasOwnProperty (v : JsValue) (k : string) : Completion bool :=
  ks ← Object_keys v;
  let hidden := match v with JString _ | JArray _ => ["length"] | _ => [] end in
  Normal (bool_decide (k ∈ ks ++ hidden)).

(** [v.k], for the keys these sources read from a properties bag
    ([value], [metadata], [aggregateId]). *)
Definition get_prop (v : JsValue) (k : string) : Completion JsValue :=
  match v with
  | JUndefined | JNull => Abrupt TypeError
  | JObject fields => Normal (default JUndefined (lookup_field k fields))
  | _ => Normal JUndefined
  end.

(** [Object.freeze(v)]: values of the model are immutable already. *)
Definition Object_freeze (v : JsValue) : JsValue := v.

(** *** The order of the own properties of an object *)

(** An array index is the canonical decimal numeral of an integer below
    [2^32 - 1]: [0] and [7] are, [07], [-1] and [1.5] are not. *)
Definition array_index (k : string) : option N :=
  n ← N.of_uint <$> NilEmpty.uint_of_string k;
  if decide (pretty n = k /\ (n < 4294967295)%N) then Some n else None.

Definition index_le (a b : string * JsValue) : Prop :=
  (default 0 (array_index a.1) <= default 0 (array_index b.1))%N.

#[global] Instance index_le_dec a b : Decision (index_le a b).
Proof. unfold index_le. apply _. Defined.

(** An object lists its own properties with the array indices first, in
    ascending order, and then the other keys in the order in which they
    were created.  [fields] holds each key once, in the order of
    creation. *)
Definition own_property_order (fields : list (string * JsValue))
  : list (string * JsValue) :=
  merge_sort index_le (filter (fun kv => is_Some (array_index kv.1)) fields)
  ++ filter (fun kv => ~ is_Some (array_index kv.1)) fields.

(** An instance of a [ValueObject] subclass also holds values that are not
    plain data: its [errors], instances of the imported [ExceptionBase],
    and the two bound methods that [isValid] attaches.  [opaque_field o k]
    is the value that the instance [o] holds under such a key [k]. *)
Class OpaqueFields := opaque_field : ValueObjectInstance -> string -> JsValue.

(** ** value-object.base.ts *)

Module ValueObject.

Definition self (o : ValueObjectInstance) : loc :=
  match o with MkValueObject l _ _ _ => l end.
Definition props (o : ValueObjectInstance) : JsValue :=
  match o with MkValueObject _ p _ _ => p end.
Definition errors (o : ValueObjectInstance) : list ExceptionBase :=
  match o with MkValueObject _ _ es _ => es end.
Definition armed (o : ValueObjectInstance) : bool :=
  match o with MkValueObject _ _ _ a => a end.

(** The argument of [equals(vo?)]. *)
Inductive EqualsArgument :=
| ArgUndefined
| ArgNull
| ArgValueObject (vo : ValueObjectInstance).

Section WithCollaborators.

(** [Guard.isEmpty] of [@luccazx12/guard]. *)
Variable Guard_isEmpty : JsValue -> bool.
(** [convertPropsToObject] of [./utils/convert-props-to-object.util]. *)
Variable convertPropsToObject : JsValue -> JsValue.
(** The abstract [validate(props)] of the subclass, as the errors it passes
    to [addError], in order. *)
Variable validate : JsValue -> list ExceptionBase.
(** [JSON.stringify] on an instance. *)
Variable JSON_stringify : ValueObjectInstance -> string.

Definition addError (error : ExceptionBase) (errs : list ExceptionBase)
  : list ExceptionBase :=
  errs ++ [error].

Definition isDomainPrimitive (obj : JsValue) : Completion bool :=
  hasOwnProperty obj "value".

Definition checkIfEmpty (props : JsValue) (errs : list ExceptionBase)
  : Completion (list ExceptionBase) :=
  empty ←
    (if Guard_isEmpty props then Normal true
     else
       primitive ← isDomainPrimitive props;
       if primitive : bool
       then value ← get_prop props "value"; Normal (Guard_isEmpty value)
       else Normal false);
  Normal
    (if empty : bool
     then addError
            (MkException ArgumentNotProvidedException
               "Properties cannot be empty") errs
     else errs).

(** [new Subclass(props)], the new object being at address [l]. *)
Definition new (l : loc) (props : JsValue) : Completion ValueObjectInstance :=
  let errs := [] in
  errs ← checkIfEmpty props errs;
  let errs := foldl (fun acc e => addError e acc) errs (validate props) in
  Normal (MkValueObject l props errs false).

Definition internalUnpack (o : ValueObjectInstance) : Completion JsValue :=
  primitive ← isDomainPrimitive (props o);
  if primitive : bool
  then get_prop (props o) "value"
  else Normal (Object_freeze (convertPropsToObject (props o))).

Definition forceUnpack (o : ValueObjectInstance) : Completion JsValue :=
  if Nat.ltb 0 (length (errors o)) then Abrupt (ThrowErrors (errors o))
  else internalUnpack o.

Definition addValidValueObjectAttributes (o : ValueObjectInstance)
  : ValueObjectInstance :=
  MkValueObject (self o) (props o) (errors o) true.

Definition isValid (o : ValueObjectInstance) : bool * ValueObjectInstance :=
  if Nat.ltb 0 (length (errors o)) then (false, o)
  else (true, addValidValueObjectAttributes o).

Definition internalEquals (this : ValueObjectInstance) (vo : EqualsArgument)
  : bool :=
  match vo with
  | ArgValueObject vo => bool_decide (JSON_stringify this = JSON_stringify vo)
  | ArgNull | ArgUndefined => false
  end.

(** [o.unpack()] and [o.equals(vo)]: the methods exist only once [isValid]
    has attached them. *)
Definition unpack (o : ValueObjectInstance) : Completion JsValue :=
  if armed o then internalUnpack o else Abrupt TypeError.

Definition equals (o : ValueObjectInstance) (vo : EqualsArgument)
  : Completion bool :=
  if armed o then Normal (internalEquals o vo) else Abrupt TypeError.

End WithCollaborators.

(** The error that [checkIfEmpty] records. *)
Definition cannot_be_empty : ExceptionBase :=
  MkException ArgumentNotProvidedException "Properties cannot be empty".

End ValueObject.

(** ** entity.base.ts *)

Module Entity.

Definition MAX_PROPS : nat := 50.

(** [AggregateId = Id], and [Id extends ValueObject<string>]. *)
Definition AggregateId := ValueObjectInstance.

Record CreateEntityProps := MkCreateEntityProps {
  create_id : AggregateId;
  create_props : JsValue;
  create_createdAt : option Z;
  create_updatedAt : option Z
}.

(** The fields of an entity; [armed] records whether [isValid] has attached
    [equals], [getPropsCopy] and [toObject] to it. *)
Record t := MkEntity {
  _id : AggregateId;
  _createdAt : Z;
  _updatedAt : Z;
  props : JsValue;
  errors : list ExceptionBase;
  armed : bool
}.

Definition set_errors (errs : list ExceptionBase) (e : t) : t :=
  MkEntity (_id e) (_createdAt e) (_updatedAt e) (props e) errs (armed e).

(** The argument of [equals(object?)]. *)
Inductive EqualsArgument :=
| ArgUndefined
| ArgNull
| ArgEntity (object : t).

(** [a === b] on two instances: the same object. *)
Definition strict_equals (a b : ValueObjectInstance) : bool :=
  Nat.eqb (ValueObject.self a) (ValueObject.self b).

(** The properties of a plain object, each key once: a key is created by
    its first binding, which is also the one that the object holds. *)
Fixpoint first_bindings (fields : list (string * JsValue))
  : list (string * JsValue) :=
  match fields with
  | [] => []
  | (k, v) :: rest => (k, v) :: filter (fun kv => kv.1 <> k) (first_bindings rest)
  end.

(** The own enumerable properties that [{...v}] copies, in the order in
    which it copies them: those of a plain object, the elements of an
    array, the characters of a string, the fields of an instance with the
    methods attached to it; a number, a boolean, a date, [undefined] and
    [null] have none. *)
Definition own_entries `{OpaqueFields} (v : JsValue) : list (string * JsValue) :=
  match v with
  | JObject fields => own_property_order (first_bindings fields)
  | JArray items => zip (pretty <$> seq 0 (length items)) items
  | JString s =>
      zip (pretty <$> seq 0 (String.length s))
        ((fun c => JString (String c EmptyString)) <$> String.list_ascii_of_string s)
  | JInstance o =>
      [("errors", opaque_field o "errors"); ("props", ValueObject.props o)]
      ++ (if ValueObject.armed o
          then [("equals", opaque_field o "equals");
                ("unpack", opaque_field o "unpack")]
          else [])
  | _ => []
  end.

(** Setting a key: a later binding of a key replaces the value and keeps
    the place of the earlier one; a new key is created last. *)
Fixpoint object_set (k : string) (v : JsValue) (fields : list (string * JsValue))
  : list (string * JsValue) :=
  match fields with
  | [] => [(k, v)]
  | (k', v') :: rest =>
      if decide (k = k') then (k, v) :: rest else (k', v') :: object_set k v rest
  end.

(** An object literal [{ k: v, ... }]: the entries are set in turn, and the
    object lists them in the order of its own properties. *)
Definition object_literal (entries : list (string * JsValue)) : JsValue :=
  JObject
    (own_property_order (foldl (fun acc kv => object_set kv.1 kv.2 acc) [] entries)).

Section WithCollaborators.

Context {opaque : OpaqueFields}.
Variable Guard_isEmpty : JsValue -> bool.
Variable convertPropsToObject : JsValue -> JsValue.
(** The abstract [validate()] of the subclass, as the errors it passes to
    [addError], in order; it runs last in the constructor. *)
Variable validate : t -> list ExceptionBase.

Definition id (e : t) : AggregateId := _id e.
Definition createdAt (e : t) : Z := _createdAt e.
Definition updatedAt (e : t) : Z := _updatedAt e.

Definition addError (error : ExceptionBase) (errs : list ExceptionBase)
  : list ExceptionBase :=
  errs ++ [error].

Definition validateProps (props : JsValue) (errs : list ExceptionBase)
  : Completion (list ExceptionBase) :=
  let errs :=
    if Guard_isEmpty props
    then addError (MkException ArgumentNotProvidedException
                     "Entity props should not be empty") errs
    else errs in
  let errs :=
    if bool_decide (typeof props ≠ "object")
    then addError (MkException ArgumentInvalidException
                     "Entity props should be an object") errs
    else errs in
  keys ← Object_keys props;
  Normal
    (if Nat.ltb MAX_PROPS (length keys)
     then addError
            (MkException ArgumentOutOfRangeException
               ("Entity props should not have more than " +:+ pretty MAX_PROPS
                +:+ " properties")) errs
     else errs).

(** [new Subclass({ id, createdAt, updatedAt, props })], with [now] the
    value of [new Date()]. *)
Definition new (now : Z) (c : CreateEntityProps) : Completion t :=
  let errs := [] in
  let _id := create_id c in
  errs ← validateProps (create_props c) errs;
  let e := MkEntity _id (default now (create_createdAt c))
             (default now (create_updatedAt c)) (create_props c) errs false in
  Normal (set_errors (foldl (fun acc x => addError x acc) errs (validate e)) e).

Definition addValidEntityAttributes (e : t) : t :=
  MkEntity (_id e) (_createdAt e) (_updatedAt e) (props e) (errors e) true.

Definition isValid (e : t) : bool * t :=
  if Nat.ltb 0 (length (errors e)) then (false, e)
  else (true, addValidEntityAttributes e).

Definition internalEquals (this : t) (object : EqualsArgument) : bool :=
  match object with
  | ArgNull => false
  | ArgUndefined => false
  | ArgEntity o => strict_equals (id this) (id o)
  end.

Definition internalGetPropsCopy (this : t) : JsValue :=
  let propsCopy :=
    convertPropsToObject
      (object_literal
         ([("id", JInstance (_id this));
           ("createdAt", JDate (_createdAt this));
           ("updatedAt", JDate (_updatedAt this))]
          ++ own_entries (props this))) in
  Object_freeze propsCopy.

Definition internalToObject (this : t) : JsValue :=
  let plainProps := convertPropsToObject (props this) in
  let result :=
    object_literal
      ([("id", JInstance (_id this));
        ("createdAt", JDate (_createdAt this));
        ("updatedAt", JDate (_updatedAt this))]
       ++ own_entries plainProps) in
  Object_freeze result.

(** The three methods that exist on the object only once [isValid] has
    attached them; calling a missing method is a [TypeError]. *)
Definition equals (e : t) (object : EqualsArgument) : Completion bool :=
  if armed e then Normal (internalEquals e object) else Abrupt TypeError.

Definition getPropsCopy (e : t) : Completion JsValue :=
  if armed e then Normal (internalGetPropsCopy e) else Abrupt TypeError.

Definition toObject (e : t) : Completion JsValue :=
  if armed e then Normal (internalToObject e) else Abrupt TypeError.

End WithCollaborators.

(** The three errors that [validateProps] can record. *)
Definition not_provided : ExceptionBase :=
  MkException ArgumentNotProvidedException "Entity props should not be empty".

Definition invalid : ExceptionBase :=
  MkException ArgumentInvalidException "Entity props should be an object".

Definition out_of_range : ExceptionBase :=
  MkException ArgumentOutOfRangeException
    "Entity props should not have more than 50 properties".

End Entity.

(** ** events/domain-event.base.ts *)

Module DomainEvent.

(** An event object: the names of its class and of the classes that one
    extends (nearest first), the two fields the [Event] base class sets,
    the commit flag, the unpacked aggregate id, and the payload fields of
    the subclass. *)
Record t := MkDomainEvent {
  class_chain : list string;
  id : JsValue;
  metadata : JsValue;
  committed : bool;
  aggregateId : JsValue;
  payload : list (string * JsValue)
}.

#[global] Instance t_inhabited : Inhabited t :=
  populate (MkDomainEvent [] JUndefined JUndefined false JUndefined []).

(** [this.constructor.name] *)
Definition constructor_name (chain : list string) : string :=
  default "" (head chain).

(** [event instanceof C]: [C] is on the prototype chain of the event. *)
Definition instanceof (event : t) (C : string) : bool :=
  bool_decide (C ∈ class_chain event).

Definition isCommitted (event : t) : bool := committed event.

Definition commit (event : t) : t :=
  MkDomainEvent (class_chain event) (id event) (metadata event) true
    (aggregateId event) (payload event).

(** What the constructor of a subclass named by [chain] throws on empty
    props. *)
Definition props_should_not_be_empty (chain : list string) : Thrown :=
  ThrowException
    (MkException ArgumentNotProvidedException
       (constructor_name chain +:+ " props should not be empty")).

Section WithCollaborators.

Variable Guard_isEmpty : JsValue -> bool.
Variable convertPropsToObject : JsValue -> JsValue.
(** The constructor of [Event] of [@luccazx12/eda], as the [id] and the
    [metadata] it leaves on the object. *)
Variable Event_new : JsValue -> Completion (JsValue * JsValue).

(** [props.aggregateId.forceUnpack()] *)
Definition call_forceUnpack (v : JsValue) : Completion JsValue :=
  match v with
  | JInstance o => ValueObject.forceUnpack convertPropsToObject o
  | _ => Abrupt TypeError
  end.

(** [new Subclass(props)]: the constructor of the base class, for a
    subclass named by [chain] whose own constructor then sets [fields]. *)
Definition new (chain : list string) (fields : list (string * JsValue))
    (props : JsValue) : Completion t :=
  m ← get_prop props "metadata";
  base ← Event_new (JObject [("metadata", m)]);
  let committed := false in
  if Guard_isEmpty props then
    Abrupt (props_should_not_be_empty chain)
  else
    a ← get_prop props "aggregateId";
    aggregateId ← call_forceUnpack a;
    Normal (MkDomainEvent chain base.1 base.2 committed aggregateId fields).

End WithCollaborators.

Section WithPayload.

Context {opaque : OpaqueFields}.
(** The abstract [getPrimitives()] of the subclass. *)
Variable getPrimitives : t -> JsValue.

Definition toPrimitives (this : t) : JsValue :=
  Entity.object_literal
    ([("id", id this);
      ("aggregateId", aggregateId this);
      ("metadata", metadata this)]
     ++ Entity.own_entries (getPrimitives this)).

End WithPayload.

End DomainEvent.

(** ** events/integration-event.base.ts (unnamed part 002) *)

Module IntegrationEvent.

(** An integration event: its class, the two fields the [Event] base class
    sets, and the optional [key].  The abstract [version] belongs to the
    subclass. *)
Record t := MkIntegrationEvent {
  class_chain : list string;
  id : JsValue;
  metadata : JsValue;
  key : JsValue
}.

Section WithCollaborators.

Variable Guard_isEmpty : JsValue -> bool.
Variable convertPropsToObject : JsValue -> JsValue.
Variable Event_new : JsValue -> Completion (JsValue * JsValue).

(** [new Subclass(props)]: the arguments of [super(...)] are evaluated
    first, [props.id.forceUnpack()] and then [props.metadata]. *)
Definition new (chain : list string) (props : JsValue) : Completion t :=
  i ← get_prop props "id";
  unpacked ← DomainEvent.call_forceUnpack convertPropsToObject i;
  m ← get_prop props "metadata";
  base ← Event_new (JObject [("id", unpacked); ("metadata", m)]);
  if Guard_isEmpty props then
    Abrupt (DomainEvent.props_should_not_be_empty chain)
  else
    k ← get_prop props "key";
    Normal (MkIntegrationEvent chain base.1 base.2 k).

End WithCollaborators.

End IntegrationEvent.

(** ** utils/is-defined-and-not-empty.ts, utils/get-option-from-class.util.ts *)

Module Utils.

(** [value !== undefined] and [value !== ""] *)
Definition is_undefined (value : JsValue) : bool :=
  match value with JUndefined => true | _ => false end.

Definition is_empty_string (value : JsValue) : bool :=
  match value with JString s => bool_decide (s = "") | _ => false end.

Definition isDefinedAndNotEmpty (value : JsValue) : bool :=
  negb (is_undefined value) && negb (is_empty_string value).

Section WithCollaborators.

Variable T : Type.
Variable Guard_isEmpty : JsValue -> bool.
(** [Option(x)] of [oxide.ts], on a value and on an instance of the class. *)
Variable Option_of_value : JsValue -> option JsValue.
Variable Option_of_instance : T -> option T.
(** [new classParameter(value)] *)
Variable classParameter : JsValue -> Completion T.

Definition getOptionFromClass (value : JsValue) : Completion (option T) :=
  if Guard_isEmpty value
     || bool_decide (Option_of_value value = None)
     || negb (isDefinedAndNotEmpty value)
  then Normal None
  else
    instance ← classParameter value;
    Normal (Option_of_instance instance).

End WithCollaborators.

End Utils.

(** ** The heap of shared objects *)

(** Arrays of events and the events themselves are objects that several
    owners can hold: an address is an index into the store of its kind, and
    [new] appends.  JavaScript has no dangling reference; [Heap.valid_array]
    and [Heap.valid_event] say that an address is live, and an access to an
    address that is not leaves the heap as it is. *)
Module Heap.

Record t := MkHeap {
  arrays : list (list loc);
  events : list DomainEvent.t
}.

Definition empty : t := MkHeap [] [].

Definition valid_array (h : t) (a : loc) : Prop := a < length (arrays h).
Definition valid_event (h : t) (e : loc) : Prop := e < length (events h).

(** The elements of the array at [a]. *)
Definition read_array (h : t) (a : loc) : list loc :=
  default [] (arrays h !! a).

(** The event at [e]. *)
Definition read_event (h : t) (e : loc) : DomainEvent.t :=
  default inhabitant (events h !! e).

(** An array literal, or [xs.slice()]: a new array with these elements. *)
Definition alloc_array (xs : list loc) (h : t) : loc * t :=
  (length (arrays h), MkHeap (arrays h ++ [xs]) (events h)).

(** [new SomeEvent(...)], once its constructor has returned. *)
Definition alloc_event (ev : DomainEvent.t) (h : t) : loc * t :=
  (length (events h), MkHeap (arrays h) (events h ++ [ev])).

(** [a.push(e)] *)
Definition push (a : loc) (e : loc) (h : t) : t :=
  MkHeap (alter (fun xs => xs ++ [e]) a (arrays h)) (events h).

(** [a.slice()] *)
Definition slice (a : loc) (h : t) : loc * t :=
  alloc_array (read_array h a) h.

(** [e.commit()] and [e.isCommitted()] on the event at [e]. *)
Definition commit (e : loc) (h : t) : t :=
  MkHeap (arrays h) (alter DomainEvent.commit e (events h)).

Definition isCommitted (h : t) (e : loc) : bool :=
  DomainEvent.isCommitted (read_event h e).

End Heap.

(** ** events/event-bus.interface.ts *)

Module EventBus.

(** How the promise that [dispatch] returns settles. *)
Inductive Settlement := Fulfilled | Rejected.

Definition is_fulfilled (s : Settlement) : bool :=
  match s with Fulfilled => true | Rejected => false end.

(** One call of [dispatch(event)]: the event handed over, and the state
    that object was in at that moment. *)
Record Call := MkCall {
  call_event : loc;
  call_seen : DomainEvent.t
}.

(** An [IEventBus].  The interface fixes nothing but the signature of
    [dispatch], so a bus is any function from the calls it has received
    and the call it receives to a settlement; [received] keeps the calls. *)
Record t := MkBus {
  behaviour : list Call -> Call -> Settlement;
  received : list Call
}.

Definition dispatch (bus : t) (h : Heap.t) (event : loc) : t * Settlement :=
  let call := MkCall event (Heap.read_event h event) in
  (MkBus (behaviour bus) (received bus ++ [call]),
   behaviour bus (received bus) call).

End EventBus.

(** ** event-bus-router (unnamed part 003) *)

Module EventBusRouter.

Record t := MkRouter {
  uncommittedEventBus : EventBus.t;
  committedEventBus : EventBus.t
}.

(** [route(domainEvent)]: the router after the call, and how the promise it
    returns settles. *)
Definition route (this : t) (h : Heap.t) (domainEvent : loc)
  : t * EventBus.Settlement :=
  if Heap.isCommitted h domainEvent then
    let '(bus, s) := EventBus.dispatch (committedEventBus this) h domainEvent in
    (MkRouter (uncommittedEventBus this) bus, s)
  else
    let '(bus, s) := EventBus.dispatch (uncommittedEventBus this) h domainEvent in
    (MkRouter bus (committedEventBus this), s).

End EventBusRouter.

(** ** aggregate-root.base.ts *)

Module AggregateRoot.

(** [ILogger]: the messages handed to [debug], oldest first. *)
Definition Logger := list string.

Definition debug (message : string) (logger : Logger) : Logger :=
  logger ++ [message].

(** The double-quote character of the log line. *)
Definition double_quote : string :=
  String (Ascii.ascii_of_nat 34) EmptyString.

Section WithSubclass.

(** The fields that the subclass adds to the aggregate. *)
Variable S : Type.

(** An aggregate object.  [_domainEvents] holds the address of the array
    that is the ledger. *)
Record t := MkAggregate {
  entity : Entity.t;
  class_name : string;
  version : Z;
  _domainEvents : loc;
  state : S
}.

(** The aggregate under study and the heap around it. *)
Record World := MkWorld {
  heap : Heap.t;
  this : t
}.

Definition set_domainEvents (a : loc) (o : t) : t :=
  MkAggregate (entity o) (class_name o) (version o) a (state o).

Definition set_visible (vs : Z * S) (o : t) : t :=
  MkAggregate (entity o) (class_name o) vs.1 (_domainEvents o) vs.2.

(** The events in the ledger, oldest first. *)
Definition ledger (w : World) : list loc :=
  Heap.read_array (heap w) (_domainEvents (this w)).

(** The ledger is a live array of live events. *)
Definition wf (w : World) : Prop :=
  Heap.valid_array (heap w) (_domainEvents (this w)) /\
  Forall (Heap.valid_event (heap w)) (ledger w).

Variable Guard_isEmpty : JsValue -> bool.
Variable validate : Entity.t -> list ExceptionBase.
(** The [apply(event)] that the subclass defines.  It reads the event and
    assigns what a subclass can reach: the public [version] and its own
    fields ([_domainEvents] is private to the base class). *)
Variable apply : Z * S -> DomainEvent.t -> Z * S.
(** [ApplicationContext.getCorrelationId()] and [Id.toString()], as the
    text they contribute to the log line. *)
Variable correlationId : string.
Variable Id_toString : ValueObjectInstance -> string.

(** [new Subclass(createProps)]: the constructor of [Entity], then the
    field initialisers [version = 0] and [_domainEvents = []], then the
    subclass's own fields [s0]. *)
Definition new (now : Z) (c : Entity.CreateEntityProps) (name : string)
    (s0 : S) (h : Heap.t) : Completion World :=
  e ← Entity.new Guard_isEmpty validate now c;
  let version := 0%Z in
  let '(_domainEvents, h) := Heap.alloc_array [] h in
  Normal (MkWorld h (MkAggregate e name version _domainEvents s0)).

Definition pullDomainEvents (w : World) : loc * World :=
  let '(domainEvents, h) := Heap.slice (_domainEvents (this w)) (heap w) in
  let '(fresh, h) := Heap.alloc_array [] h in
  (domainEvents, MkWorld h (set_domainEvents fresh (this w))).

Definition commitEvents (w : World) : World :=
  MkWorld (foldl (fun h e => Heap.commit e h) (heap w) (ledger w)) (this w).

Definition clearEvents (w : World) : World :=
  let '(fresh, h) := Heap.alloc_array [] (heap w) in
  MkWorld h (set_domainEvents fresh (this w)).

Definition published_message (o : t) (event : DomainEvent.t) : string :=
  correlationId +:+ " - " +:+ double_quote
  +:+ DomainEvent.constructor_name (DomainEvent.class_chain event)
  +:+ double_quote +:+ " event published for aggregate " +:+ class_name o
  +:+ " : " +:+ Id_toString (Entity.id (entity o)).

(** The body of the [async] arrow that [publishEvents] maps over the
    ledger, up to its [await]: it runs when [map] calls it.  The logger
    returns; what the bus does shows in how its promise settles. *)
Definition publish_event (o : t) (event : loc)
    (st : Heap.t * Logger * EventBus.t)
  : Heap.t * Logger * EventBus.t * EventBus.Settlement :=
  let '(h, logger, eventBus) := st in
  let logger := debug (published_message o (Heap.read_event h event)) logger in
  let h := Heap.commit event h in
  let '(eventBus, promise) := EventBus.dispatch eventBus h event in
  (h, logger, eventBus, promise).

(** [this._domainEvents.map(async (event) => ...)]: the promises, in the
    order of the ledger. *)
Fixpoint publish_map (o : t) (events : list loc)
    (st : Heap.t * Logger * EventBus.t)
  : Heap.t * Logger * EventBus.t * list EventBus.Settlement :=
  match events with
  | [] => (st, [])
  | event :: rest =>
      let '(st, promise) := publish_event o event st in
      let '(st, promises) := publish_map o rest st in
      (st, promise :: promises)
  end.

(** [await Promise.all(promises)]: fulfilled when all are. *)
Definition Promise_all (promises : list EventBus.Settlement)
  : EventBus.Settlement :=
  if forallb EventBus.is_fulfilled promises
  then EventBus.Fulfilled else EventBus.Rejected.

(** [publishEvents(logger, eventBus)], run with no other writer of the
    aggregate in between: the state after, and how the promise settles.
    A rejected [await] leaves the function before [clearEvents]. *)
Definition publishEvents (logger : Logger) (eventBus : EventBus.t) (w : World)
  : World * Logger * EventBus.t * EventBus.Settlement :=
  let '(h, logger, eventBus, promises) :=
    publish_map (this w) (ledger w) (heap w, logger, eventBus) in
  let w := MkWorld h (this w) in
  match Promise_all promises with
  | EventBus.Fulfilled => (clearEvents w, logger, eventBus, EventBus.Fulfilled)
  | EventBus.Rejected => (w, logger, eventBus, EventBus.Rejected)
  end.

Definition applyInternalEventChanges (event : loc) (isNew : bool) (w : World)
  : World :=
  let w :=
    MkWorld (heap w)
      (set_visible
         (apply (version (this w), state (this w))
            (Heap.read_event (heap w) event))
         (this w)) in
  if isNew
  then MkWorld (Heap.push (_domainEvents (this w)) event (heap w)) (this w)
  else w.

(** [loadsFromHistory(history, creationEvent)], with the elements of the
    array [history]. *)
Fixpoint loadsFromHistory (history : list loc) (creationEvent : string)
    (w : World) : World :=
  match history with
  | [] => w
  | event :: rest =>
      if DomainEvent.instanceof (Heap.read_event (heap w) event) creationEvent
      then loadsFromHistory rest creationEvent w
      else
        loadsFromHistory rest creationEvent
          (applyInternalEventChanges event false w)
  end.

Definition applyChange (event : loc) (w : World) : World :=
  applyInternalEventChanges event true w.

(** A call of one of the operations of the core, and a sequence of them. *)
Inductive Operation :=
| ApplyChange (event : loc)
| LoadsFromHistory (history : list loc) (creationEvent : string)
| PullDomainEvents
| CommitEvents
| ClearEvents
| PublishEvents (logger : Logger) (eventBus : EventBus.t).

Definition run (op : Operation) (w : World) : World :=
  match op with
  | ApplyChange event => applyChange event w
  | LoadsFromHistory history creationEvent =>
      loadsFromHistory history creationEvent w
  | PullDomainEvents => (pullDomainEvents w).2
  | CommitEvents => commitEvents w
  | ClearEvents => clearEvents w
  | PublishEvents logger eventBus => (publishEvents logger eventBus w).1.1.1
  end.

Definition run_all (ops : list Operation) (w : World) : World :=
  foldl (fun w op => run op w) w ops.

End WithSubclass.

Arguments entity {S} _.
Arguments class_name {S} _.
Arguments version {S} _.
Arguments _domainEvents {S} _.
Arguments state {S} _.
Arguments heap {S} _.
Arguments this {S} _.
Arguments MkWorld {S} _ _.
Arguments MkAggregate {S} _ _ _ _ _.
Arguments ledger {S} _.
Arguments wf {S} _.
Arguments pullDomainEvents {S} _.
Arguments commitEvents {S} _.
Arguments clearEvents {S} _.
Arguments set_domainEvents {S} _ _.

End AggregateRoot.

(** ** What the operations are expected to do, in the spec's words *)

Module Reading.

(** Replay: the events of [history] that are not instances of [C], as they stand
    in the heap, in the order of the stream. *)
Definition replayed (h : Heap.t) (history : list loc) (C : string)
  : list DomainEvent.t :=
  List.filter (fun ev => negb (DomainEvent.instanceof ev C))
    (Heap.read_event h <$> history).

(** Publication: the calls that the bus receives for the events [es] of a heap [h]:
    each event, committed. *)
Definition committed_calls (h : Heap.t) (es : list loc) : list EventBus.Call :=
  (fun e => EventBus.MkCall e (DomainEvent.commit (Heap.read_event h e))) <$> es.

(** Validation of an entity's props: what the three rules record for
    [props] whose own keys are [keys], in the order of the rules. *)
Definition recorded_by_rules (Guard_isEmpty : JsValue -> bool)
    (props : JsValue) (keys : list string) : list ExceptionBase :=
  (if Guard_isEmpty props then [Entity.not_provided] else [])
  ++ (if bool_decide (typeof props ≠ "object") then [Entity.invalid] else [])
  ++ (if Nat.ltb Entity.MAX_PROPS (length keys) then [Entity.out_of_range] else []).

(** An object literal: the value under a key is that of its last binding. *)
Definition last_binding (k : string) (entries : list (string * JsValue))
  : option JsValue :=
  lookup_field k (reverse entries).

(** The order of the keys of an object: the array indices [indices], their
    numbers strictly ascending, and then the other keys [names]. *)
Definition key_order (keys indices names : list string) : Prop :=
  keys = indices ++ names /\
  Forall (fun k => is_Some (array_index k)) indices /\
  StronglySorted N.lt (omap array_index indices) /\
  Forall (fun k => array_index k = None) names.

End Reading.

(** ** What a caller of the aggregate may rely on *)

Module Invariant.

(** An operation that a program can issue on a heap: the event that it
    applies is a live object. *)
Definition valid_operation (h : Heap.t) (op : AggregateRoot.Operation) : Prop :=
  match op with
  | AggregateRoot.ApplyChange event => Heap.valid_event h event
  | _ => True
  end.

(** [ev'] is [ev], or [ev] committed. *)
Definition same_or_committed (ev ev' : DomainEvent.t) : Prop :=
  ev' = ev \/ ev' = DomainEvent.commit ev.

End Invariant.

(** ** Concrete collaborators

    Instances of the hooks and of the imported collaborators, on which the
    statements below are run. *)

Module Fixtures.

(** A [Guard.isEmpty]: empty are [undefined], [null], the empty string, an
    object or an array without elements, and an array of empty elements;
    a number, a boolean and a date never are. *)
Fixpoint Guard_isEmpty (v : JsValue) : bool :=
  match v with
  | JNumber _ | JBoolean _ => false
  | JUndefined | JNull => true
  | JDate _ => false
  | JObject fields => match fields with [] => true | _ => false end
  | JArray items => forallb Guard_isEmpty items
  | JString s => bool_decide (s = "")
  | JInstance _ => false
  end.

(** A [convertPropsToObject] for plain data, which has nothing to unwrap. *)
Definition convertPropsToObject (v : JsValue) : JsValue := v.

(** A subclass whose [validate] adds no rule. *)
Definition no_rule {A} (_ : A) : list ExceptionBase := [].

(** An [Event] constructor that keeps the metadata it is given. *)
Definition Event_new (arg : JsValue) : Completion (JsValue * JsValue) :=
  m ← get_prop arg "metadata";
  Normal (JString "event-1", m).

(** An [Id] holding [s], at address [l]. *)
Definition an_id (l : loc) (s : string) : ValueObjectInstance :=
  MkValueObject l (JObject [("value", JString s)]) [] false.

(** A props object with [n] keys. *)
Definition props_with (n : nat) : JsValue :=
  JObject ((fun i => (pretty i, JNumber (Z.of_nat i))) <$> seq 0 n).

(** An aggregate that counts the events applied to it. *)
Definition count_applied (vs : Z * nat) (_ : DomainEvent.t) : Z * nat :=
  (vs.1, S vs.2).

(** An aggregate whose [apply] also bumps the public [version]. *)
Definition bump_version (vs : Z * nat) (_ : DomainEvent.t) : Z * nat :=
  ((vs.1 + 1)%Z, S vs.2).

(** A bus whose every dispatch is fulfilled, and one that rejects them. *)
Definition accepting_bus : EventBus.t :=
  EventBus.MkBus (fun _ _ => EventBus.Fulfilled) [].

Definition rejecting_bus : EventBus.t :=
  EventBus.MkBus (fun _ _ => EventBus.Rejected) [].

(** Two events of an account, and the event that created it. *)
Definition created : DomainEvent.t :=
  DomainEvent.MkDomainEvent ["AccountCreated"; "DomainEvent"; "Event"]
    (JString "e0") JUndefined false (JString "account-1") [].

Definition deposited (amount : Z) : DomainEvent.t :=
  DomainEvent.MkDomainEvent ["Deposited"; "DomainEvent"; "Event"]
    (JString "e1") JUndefined false (JString "account-1")
    [("amount", JNumber amount)].

(** Two entities that share one id object and differ in their props, and
    a third whose id is another object holding the same string. *)
Definition ann : Entity.t :=
  Entity.MkEntity (an_id 1 "u-1") 0 0 (JObject [("name", JString "Ann")]) [] false.

Definition ann_renamed : Entity.t :=
  Entity.MkEntity (an_id 1 "u-1") 0 9 (JObject [("name", JString "Anna")]) [] false.

Definition twin : Entity.t :=
  Entity.MkEntity (an_id 2 "u-1") 0 0 (JObject [("name", JString "Ann")]) [] false.

(** The input of an entity with 51 props. *)
Definition crowded : Entity.CreateEntityProps :=
  Entity.MkCreateEntityProps (an_id 1 "u-1") (props_with 51) None None.

(** An account whose ledger is the array at address 0, in a heap that
    holds three events. *)
Definition an_account : AggregateRoot.World nat :=
  AggregateRoot.MkWorld
    (Heap.MkHeap [[]] [created; deposited 5; deposited 7])
    (AggregateRoot.MkAggregate ann "Account" 0 0 0).

(** The account after a deposit: the event at address 1 is in its ledger. *)
Definition a_deposit : AggregateRoot.World nat :=
  AggregateRoot.applyChange nat count_applied 1 an_account.

(** A caller that publishes to [eventBus] and then pulls: how the
    publication settled, and the events that the pull returned. *)
Definition publish_then_pull (eventBus : EventBus.t)
    (w : AggregateRoot.World nat) : EventBus.Settlement * list loc :=
  let '(w, _, _, settled) :=
    AggregateRoot.publishEvents nat "c-1" (fun _ => "account-1") [] eventBus w in
  let '(pulled, w) := AggregateRoot.pullDomainEvents w in
  (settled, Heap.read_array (AggregateRoot.heap w) pulled).

(** A session that uses every operation of the core. *)
Definition a_session : list (AggregateRoot.Operation) :=
  [AggregateRoot.LoadsFromHistory [0; 1] "AccountCreated";
   AggregateRoot.ApplyChange 2;
   AggregateRoot.CommitEvents;
   AggregateRoot.PullDomainEvents;
   AggregateRoot.ApplyChange 1;
   AggregateRoot.PublishEvents [] accepting_bus;
   AggregateRoot.ApplyChange 2;
   AggregateRoot.ClearEvents].

(** A [JSON.stringify] for the values of the model.  An instance is written
    with its two fields, [errors] (each error by its message) and [props];
    the methods attached to it and the fields that are [undefined] are left
    out, and a date is written by its time value. *)
Definition quoted (s : string) : string :=
  AggregateRoot.double_quote +:+ s +:+ AggregateRoot.double_quote.

Fixpoint json (v : JsValue) : string :=
  match v with
  | JUndefined | JNull => "null"
  | JBoolean b => if b then "true" else "false"
  | JNumber n => pretty n
  | JString s => quoted s
  | JDate ms => quoted (pretty ms)
  | JObject fields =>
      "{" +:+ String.concat ","
                (omap (fun '(k, x) =>
                         match x with
                         | JUndefined => None
                         | _ => Some (quoted k +:+ ":" +:+ json x)
                         end) fields)
      +:+ "}"
  | JArray items => "[" +:+ String.concat "," (json <$> items) +:+ "]"
  | JInstance (MkValueObject _ props errors _) =>
      "{" +:+ quoted "errors" +:+ ":["
      +:+ String.concat "," ((fun e => quoted (exn_message e)) <$> errors)
      +:+ "]," +:+ quoted "props" +:+ ":" +:+ json props +:+ "}"
  end.

Definition JSON_stringify (o : ValueObjectInstance) : string :=
  json (JInstance o).

(** An id that holds the text of [an_id 1 "u-1"] and that the [validate]
    hook of its class has rejected. *)
Definition a_rejected_id : ValueObjectInstance :=
  MkValueObject 3 (JObject [("value", JString "u-1")])
    [MkException ArgumentInvalidException "Id is not a uuid"] false.

(** The values that are not plain data, shown as text: the errors by their
    messages, a method by its name. *)
Definition field_as_text : OpaqueFields := fun o k =>
  if decide (k = "errors")
  then JArray ((fun e => JString (exn_message e)) <$> ValueObject.errors o)
  else JString k.

(** An armed entity whose props have two keys that are array indices. *)
Definition numbered : Entity.t :=
  Entity.MkEntity (an_id 1 "u-1") 0 0
    (JObject [("name", JString "Ann"); ("1", JString "b"); ("0", JString "a")])
    [] true.

(** A money amount: a value object of two fields, none of them [value]. *)
Definition five_euros : ValueObjectInstance :=
  MkValueObject 7 (JObject [("amount", JNumber 5); ("currency", JString "EUR")])
    [] false.

(** A deposit whose payload has a key that is an array index. *)
Definition annotated : DomainEvent.t :=
  DomainEvent.MkDomainEvent ["Deposited"; "DomainEvent"; "Event"]
    (JString "e1") JUndefined false (JString "account-1")
    [("note", JString "cash"); ("7", JNumber 7)].

(** An armed entity whose props have a key named [id]. *)
Definition shadowing : Entity.t :=
  Entity.MkEntity (an_id 1 "u-1") 0 0
    (JObject [("id", JString "fake"); ("name", JString "Ann")]) [] true.

(** The input of an entity whose props are a text of 60 characters. *)
Definition wordy : Entity.CreateEntityProps :=
  Entity.MkCreateEntityProps (an_id 1 "u-1")
    (JString "abcdefghijklmnopqrstuvwxyzabcdefghijklmnopqrstuvwxyzabcdefgh")
    None None.

(** A router with a bus for each side. *)
Definition a_router : EventBusRouter.t :=
  EventBusRouter.MkRouter accepting_bus rejecting_bus.

(** The publication of the deposit on a bus that rejects. *)
Definition rejected_publication :=
  AggregateRoot.publishEvents nat "c-1" (fun _ => "account-1") []
    rejecting_bus a_deposit.

(** A subclass whose primitives are its payload fields. *)
Definition getPrimitives (ev : DomainEvent.t) : JsValue :=
  JObject (DomainEvent.payload ev).

(** An [Option] that is [None] on [undefined] and [null], and a class
    that wraps the value it is given. *)
Definition Option_of {A} (is_nullish : A -> bool) (x : A) : option A :=
  if is_nullish x then None else Some x.

Definition nullish (v : JsValue) : bool :=
  match v with JUndefined | JNull => true | _ => false end.

Definition Email (v : JsValue) : Completion JsValue :=
  Normal (JObject [("value", v)]).

(** An id whose value is empty, with the error that its constructor
    recorded. *)
Definition an_empty_id : ValueObjectInstance :=
  MkValueObject 4 (JObject [("value", JString "")])
    [ValueObject.cannot_be_empty] false.

End Fixtures.

(** * Properties *)

(** ** Value objects *)

Module ValueObjectSpec.

Lemma lookup_field_elem_of k fields v :
  lookup_field k fields = Some v -> k ∈ fields.*1.
Proof.
  induction fields as [|[k' v'] rest IH]; simpl; [discriminate|].
  destruct (decide (k = k')) as [->|Hne]; intros H.
  - apply list_elem_of_here.
  - apply list_elem_of_further; auto.
Qed.

Lemma hasOwnProperty_field k fields v :
  lookup_field k fields = Some v ->
  hasOwnProperty (JObject fields) k = Normal true.
Proof.
  intros H. unfold hasOwnProperty; simpl. f_equal.
  apply bool_decide_eq_true. rewrite app_nil_r.
  apply elem_of_remove_dups. eapply lookup_field_elem_of; eauto.
Qed.


Lemma ltb_0_length {A} (l : list A) :
  Nat.ltb 0 (length l) = match l with [] => false | _ => true end.
Proof. destruct l; reflexivity. Qed.

Section Facts.

Variable Guard_isEmpty : JsValue -> bool.
Variable convertPropsToObject : JsValue -> JsValue.
Variable validate : JsValue -> list ExceptionBase.

Abbreviation new := (ValueObject.new Guard_isEmpty validate).
Abbreviation forceUnpack := (ValueObject.forceUnpack convertPropsToObject).
Abbreviation internalUnpack := (ValueObject.internalUnpack convertPropsToObject).

Lemma forceUnpack_no_error o :
  ValueObject.errors o = [] -> forceUnpack o = internalUnpack o.
Proof.
  intros H. unfold ValueObject.forceUnpack. rewrite ltb_0_length, H. reflexivity.
Qed.

Lemma forceUnpack_errors o :
  ValueObject.errors o <> [] ->
  forceUnpack o = Abrupt (ThrowErrors (ValueObject.errors o)).
Proof.
  intros H. unfold ValueObject.forceUnpack. rewrite ltb_0_length.
  destruct (ValueObject.errors o); [contradiction|reflexivity].
Qed.

Lemma internalUnpack_primitive o fields v :
  ValueObject.props o = JObject fields ->
  lookup_field "value" fields = Some v ->
  internalUnpack o = Normal v.
Proof.
  intros Hp Hv. unfold ValueObject.internalUnpack, ValueObject.isDomainPrimitive.
  rewrite Hp, (hasOwnProperty_field _ _ _ Hv). simpl. rewrite Hv. reflexivity.
Qed.

Lemma foldl_addError errs added :
  foldl (fun acc e => ValueObject.addError e acc) errs added = errs ++ added.
Proof.
  revert errs. induction added as [|e added IH]; intros errs; simpl.
  - symmetry. apply app_nil_r.
  - rewrite IH. unfold ValueObject.addError. rewrite <- app_assoc. reflexivity.
Qed.



End Facts.


(** A money amount is built without error and unpacks to its two fields. *)
Example forceUnpack_of_a_composite :
  ValueObject.new Fixtures.Guard_isEmpty Fixtures.no_rule 7
    (JObject [("amount", JNumber 5); ("currency", JString "EUR")])
  = Normal Fixtures.five_euros /\
  ValueObject.isDomainPrimitive (ValueObject.props Fixtures.five_euros)
  = Normal false.
Proof. split; reflexivity. Qed.

End ValueObjectSpec.

(** ** Entities *)

Module EntitySpec.

Lemma foldl_entity_addError errs added :
  foldl (fun acc e => Entity.addError e acc) errs added = errs ++ added.
Proof.
  revert errs. induction added as [|e added IH]; intros errs; simpl.
  - symmetry. apply app_nil_r.
  - rewrite IH. unfold Entity.addError. rewrite <- app_assoc. reflexivity.
Qed.

Lemma isValid_errors e :
  Entity.errors e <> [] -> Entity.isValid e = (false, e).
Proof.
  intros H. unfold Entity.isValid.
  destruct (Entity.errors e); [contradiction|reflexivity].
Qed.

Lemma isValid_true_armed a a' :
  Entity.isValid a = (true, a') ->
  Entity.armed a' = true /\ Entity.id a' = Entity.id a /\
  Entity.props a' = Entity.props a.
Proof.
  unfold Entity.isValid. destruct (Nat.ltb 0 (length (Entity.errors a)));
    intros H; inversion H; subst. repeat split.
Qed.

(** C4.  On a valid entity, [equals(object)] is true exactly when [object]
    is neither [null] nor [undefined] and its id is the very object that is
    the id of this entity ([===] on two instances compares references);
    the props of neither entity take part.  So for two entities whose ids
    unpack to the same string, [equals] is true exactly when the two ids
    are one and the same object. *)
Theorem equals_spec :
  forall a a',
    Entity.isValid a = (true, a') ->
    (forall object,
        Entity.equals a' object = Normal true <->
        exists b, object = Entity.ArgEntity b /\
                  ValueObject.self (Entity.id a) = ValueObject.self (Entity.id b)) /\
    (forall object, exists r, Entity.equals a' object = Normal r) /\
    (forall b p,
        Entity.equals a' (Entity.ArgEntity b) =
        Entity.equals a'
          (Entity.ArgEntity
             (Entity.MkEntity (Entity._id b) (Entity._createdAt b)
                (Entity._updatedAt b) p (Entity.errors b) (Entity.armed b)))) /\
    (forall convertPropsToObject b s,
        ValueObject.forceUnpack convertPropsToObject (Entity.id a) = Normal s ->
        ValueObject.forceUnpack convertPropsToObject (Entity.id b) = Normal s ->
        (Entity.equals a' (Entity.ArgEntity b) = Normal true <->
         ValueObject.self (Entity.id a) = ValueObject.self (Entity.id b))).
Proof.
  intros a a' Hv. destruct (isValid_true_armed _ _ Hv) as (Harm & Hid & _).
  assert (Heq : forall b,
             Entity.equals a' (Entity.ArgEntity b) = Normal true <->
             ValueObject.self (Entity.id a) = ValueObject.self (Entity.id b)).
  { intros b. unfold Entity.equals. rewrite Harm. simpl.
    unfold Entity.strict_equals. rewrite Hid. split.
    - intros H. injection H as H. apply Nat.eqb_eq. exact H.
    - intros H. f_equal. apply Nat.eqb_eq. exact H. }
  split; [|split; [|split]].
  - intros [| |b].
    + unfold Entity.equals. rewrite Harm. simpl. split; [discriminate|].
      intros (b & Hb & _). discriminate.
    + unfold Entity.equals. rewrite Harm. simpl. split; [discriminate|].
      intros (b & Hb & _). discriminate.
    + rewrite Heq. split.
      * intros H. exists b. split; [reflexivity|exact H].
      * intros (b' & Hb & H). injection Hb as <-. exact H.
  - intros object. unfold Entity.equals. rewrite Harm. eexists; reflexivity.
  - intros b p. unfold Entity.equals. rewrite Harm. reflexivity.
  - intros _ b s _ _. apply Heq.
Qed.

Section Facts.

Context {opaque : OpaqueFields}.

Variable Guard_isEmpty : JsValue -> bool.
Variable convertPropsToObject : JsValue -> JsValue.
Variable validate : Entity.t -> list ExceptionBase.

Abbreviation new := (Entity.new Guard_isEmpty validate).
Abbreviation validateProps := (Entity.validateProps Guard_isEmpty).

(** What [validateProps] records, rule by rule. *)
Lemma validateProps_rules props errs keys :
  Object_keys props = Normal keys ->
  validateProps props errs =
  Normal
    (errs
     ++ (if Guard_isEmpty props then [Entity.not_provided] else [])
     ++ (if bool_decide (typeof props ≠ "object") then [Entity.invalid] else [])
     ++ (if Nat.ltb Entity.MAX_PROPS (length keys) then [Entity.out_of_range] else [])).
Proof.
  intros Hk. unfold Entity.validateProps. rewrite Hk. simpl. f_equal.
  unfold Entity.addError.
  destruct (Guard_isEmpty props), (bool_decide (typeof props ≠ "object")),
    (Nat.ltb Entity.MAX_PROPS (length keys));
    simpl; rewrite <- ?app_assoc, ?app_nil_r; reflexivity.
Qed.

Lemma new_errors now c keys :
  Object_keys (Entity.create_props c) = Normal keys ->
  exists e,
    new now c = Normal e /\
    Entity.armed e = false /\
    Entity.props e = Entity.create_props c /\
    Entity.id e = Entity.create_id c /\
    exists added,
      Entity.errors e =
      (if Guard_isEmpty (Entity.create_props c) then [Entity.not_provided] else [])
      ++ (if bool_decide (typeof (Entity.create_props c) ≠ "object")
          then [Entity.invalid] else [])
      ++ (if Nat.ltb Entity.MAX_PROPS (length keys) then [Entity.out_of_range] else [])
      ++ added.
Proof.
  intros Hk. unfold Entity.new.
  rewrite (validateProps_rules _ _ _ Hk). simpl.
  eexists. split; [reflexivity|]. simpl. repeat split.
  rewrite foldl_entity_addError. eexists. rewrite <- !app_assoc. reflexivity.
Qed.

(** C8.  Built from a props object with more than 50 keys, an entity is
    not valid: [isValid()] returns false and leaves the object as it was,
    however often it is called and whatever is recorded later, so [equals],
    [getPropsCopy] and [toObject] are never attached and a call of them
    fails.  The rule records an "argument out of range" error and no
    "argument invalid" error; that kind differs from "argument not
    provided", which empty props record, and from "argument invalid",
    which props that are not an object record. *)
Theorem too_many_props_invalid :
  forall now c fields,
    Entity.create_props c = JObject fields ->
    Entity.MAX_PROPS < length (remove_dups (fields.*1)) ->
    (exists e,
        new now c = Normal e /\
        Entity.isValid e = (false, e) /\
        (forall n, Entity.armed (Nat.iter n (fun x => (Entity.isValid x).2) e) = false) /\
        (forall more,
            (Entity.isValid (Entity.set_errors (Entity.errors e ++ more) e)).1 = false) /\
        (forall object, Entity.equals e object = Abrupt TypeError) /\
        Entity.getPropsCopy convertPropsToObject e = Abrupt TypeError /\
        Entity.toObject convertPropsToObject e = Abrupt TypeError /\
        Entity.out_of_range ∈ Entity.errors e) /\
    validateProps (JObject fields) [] =
      Normal ((if Guard_isEmpty (JObject fields) then [Entity.not_provided] else [])
              ++ [Entity.out_of_range]) /\
    exn_kind Entity.out_of_range = ArgumentOutOfRangeException /\
    exn_kind Entity.out_of_range <> exn_kind Entity.not_provided /\
    exn_kind Entity.out_of_range <> exn_kind Entity.invalid /\
    (Guard_isEmpty (JObject []) = true ->
     validateProps (JObject []) [] = Normal [Entity.not_provided]) /\
    (forall n, Guard_isEmpty (JNumber n) = false ->
               validateProps (JNumber n) [] = Normal [Entity.invalid]).
Proof.
  intros now c fields Hp Hlen.
  assert (Hk : Object_keys (Entity.create_props c)
               = Normal (remove_dups (fields.*1))) by (rewrite Hp; reflexivity).
  assert (Hlt : Nat.ltb Entity.MAX_PROPS (length (remove_dups (fields.*1))) = true)
    by (apply Nat.ltb_lt; exact Hlen).
  split; [|split; [|split; [|split; [|split; [|split]]]]].
  - destruct (new_errors now c _ Hk) as (e & Hnew & Harm & _ & _ & added & Herr).
    rewrite Hlt in Herr.
    assert (Hin : Entity.out_of_range ∈ Entity.errors e).
    { rewrite Herr. rewrite !elem_of_app. right. right. left.
      apply list_elem_of_here. }
    assert (Hne : Entity.errors e <> []).
    { intros H0. rewrite H0 in Hin. inversion Hin. }
    pose proof (isValid_errors e Hne) as Hiv.
    exists e. split; [exact Hnew|]. split; [exact Hiv|].
    split.
    { intros n. induction n as [|n IH]; simpl; [exact Harm|].
      assert (Hfix : Nat.iter n (fun x => (Entity.isValid x).2) e = e).
      { clear IH. induction n as [|n IH]; simpl; [reflexivity|].
        rewrite IH, Hiv. reflexivity. }
      rewrite Hfix, Hiv. exact Harm. }
    split.
    { intros more. unfold Entity.isValid, Entity.set_errors. simpl.
      destruct (Entity.errors e ++ more) eqn:E; [|reflexivity].
      apply app_eq_nil in E. destruct E as [E _]. contradiction. }
    unfold Entity.equals, Entity.getPropsCopy, Entity.toObject.
    rewrite Harm. repeat split. exact Hin.
  - rewrite (validateProps_rules (JObject fields) [] _ eq_refl).
    rewrite Hlt. simpl. reflexivity.
  - reflexivity.
  - discriminate.
  - discriminate.
  - intros HG. rewrite (validateProps_rules (JObject []) [] _ eq_refl).
    rewrite HG. reflexivity.
  - intros n HG. rewrite (validateProps_rules (JNumber n) [] _ eq_refl).
    rewrite HG. reflexivity.
Qed.

End Facts.

#[local] Existing Instance Fixtures.field_as_text.

Lemma equals_spec_witness :
  Entity.equals (Entity.isValid Fixtures.ann).2
    (Entity.ArgEntity Fixtures.ann_renamed) = Normal true.
Proof.
  apply (proj1 (equals_spec Fixtures.ann (Entity.isValid Fixtures.ann).2 eq_refl)).
  exists Fixtures.ann_renamed. split; reflexivity.
Defined.

(** Two ids that hold the same string and are two objects: not equal. *)
Example equals_same_string_other_object :
  ValueObject.forceUnpack Fixtures.convertPropsToObject (Entity.id Fixtures.ann)
  = ValueObject.forceUnpack Fixtures.convertPropsToObject (Entity.id Fixtures.twin)
  /\ Entity.equals (Entity.isValid Fixtures.ann).2 (Entity.ArgEntity Fixtures.twin)
     = Normal false
  /\ Entity.equals (Entity.isValid Fixtures.ann).2 Entity.ArgUndefined
     = Normal false
  /\ Entity.equals Fixtures.ann (Entity.ArgEntity Fixtures.ann) = Abrupt TypeError.
Proof. repeat split. Qed.

Lemma too_many_props_invalid_witness :
  (e ← Entity.new Fixtures.Guard_isEmpty Fixtures.no_rule 0 Fixtures.crowded;
   Normal ((Entity.isValid e).1, Entity.errors e))
  = Normal (false, [Entity.out_of_range]).
Proof.
  destruct (too_many_props_invalid Fixtures.Guard_isEmpty
              Fixtures.convertPropsToObject Fixtures.no_rule 0 Fixtures.crowded
              _ eq_refl) as ((e & Hnew & Hv & _) & _).
  { vm_compute. lia. }
  rewrite Hnew. simpl. rewrite Hv. simpl.
  vm_compute in Hnew. injection Hnew as <-. reflexivity.
Defined.

End EntitySpec.

(** ** Domain events *)

Module DomainEventSpec.

Section Facts.

Variable Guard_isEmpty : JsValue -> bool.
Variable convertPropsToObject : JsValue -> JsValue.
Variable Event_new : JsValue -> Completion (JsValue * JsValue).

Abbreviation new := (DomainEvent.new Guard_isEmpty convertPropsToObject Event_new).

(** Without a bag at all the constructor fails earlier, on [props.metadata]. *)
Lemma new_undefined chain fields :
  new chain fields JUndefined = Abrupt TypeError /\
  new chain fields JNull = Abrupt TypeError.
Proof. split; reflexivity. Qed.

(** A bag that is not empty and names a valid aggregate id builds an
    uncommitted event. *)
Lemma new_event chain fields bag o base unpacked :
  Guard_isEmpty (JObject bag) = false ->
  lookup_field "aggregateId" bag = Some (JInstance o) ->
  Event_new (JObject [("metadata", default JUndefined (lookup_field "metadata" bag))])
    = Normal base ->
  ValueObject.forceUnpack convertPropsToObject o = Normal unpacked ->
  new chain fields (JObject bag) =
  Normal (DomainEvent.MkDomainEvent chain base.1 base.2 false unpacked fields).
Proof.
  intros HG Ha Hb Hu. unfold DomainEvent.new. simpl.
  rewrite Hb. simpl. rewrite HG, Ha. simpl. rewrite Hu. reflexivity.
Qed.

(** C9.  Constructing a domain event from an empty properties bag never
    returns an event: once the constructor of the base class has returned,
    the constructor throws an [ArgumentNotProvidedException] there and
    then.  An entity or a value object built from the same empty bag is
    returned, with the "not provided" error recorded in it. *)
Theorem empty_props_raise :
  forall chain fields props m,
    Guard_isEmpty props = true ->
    get_prop props "metadata" = Normal m ->
    is_normal (new chain fields props) = false /\
    new chain fields props =
      (Event_new (JObject [("metadata", m)]) ≫= fun _ =>
       Abrupt (DomainEvent.props_should_not_be_empty chain)) /\
    (forall base,
        Event_new (JObject [("metadata", m)]) = Normal base ->
        new chain fields props = Abrupt (DomainEvent.props_should_not_be_empty chain)) /\
    (forall validate now c,
        Entity.create_props c = JObject [] ->
        props = JObject [] ->
        exists e, Entity.new Guard_isEmpty validate now c = Normal e /\
                  Entity.not_provided ∈ Entity.errors e) /\
    (forall validate l,
        props = JObject [] ->
        exists o, ValueObject.new Guard_isEmpty validate l props = Normal o /\
                  MkException ArgumentNotProvidedException
                    "Properties cannot be empty" ∈ ValueObject.errors o).
Proof.
  intros chain fields props m HG Hm.
  assert (Hnew : new chain fields props =
                 (Event_new (JObject [("metadata", m)]) ≫= fun _ =>
                  Abrupt (DomainEvent.props_should_not_be_empty chain))).
  { unfold DomainEvent.new. rewrite Hm. simpl.
    destruct (Event_new (JObject [("metadata", m)])); simpl; [|reflexivity].
    rewrite HG. reflexivity. }
  split; [|split; [exact Hnew|split; [|split]]].
  - rewrite Hnew. destruct (Event_new (JObject [("metadata", m)])); reflexivity.
  - intros base Hb. rewrite Hnew, Hb. reflexivity.
  - intros validate now c Hc ->.
    destruct (EntitySpec.new_errors Guard_isEmpty validate now c []) as
      (e & He & _ & _ & _ & added & Herr).
    { rewrite Hc. reflexivity. }
    exists e. split; [exact He|]. rewrite Herr, Hc, HG.
    apply list_elem_of_here.
  - intros validate l ->. unfold ValueObject.new, ValueObject.checkIfEmpty.
    rewrite HG. simpl. eexists. split; [reflexivity|]. simpl.
    rewrite ValueObjectSpec.foldl_addError. apply list_elem_of_here.
Qed.

End Facts.

Lemma empty_props_raise_witness :
  DomainEvent.new Fixtures.Guard_isEmpty Fixtures.convertPropsToObject
    Fixtures.Event_new ["AccountCreated"; "DomainEvent"; "Event"] [] (JObject [])
  = Abrupt (ThrowException
              (MkException ArgumentNotProvidedException
                 "AccountCreated props should not be empty")).
Proof.
  exact (proj1 (proj2 (proj2
    (empty_props_raise Fixtures.Guard_isEmpty Fixtures.convertPropsToObject
       Fixtures.Event_new ["AccountCreated"; "DomainEvent"; "Event"] []
       (JObject []) JUndefined eq_refl eq_refl)))
    (JString "event-1", JUndefined) eq_refl).
Defined.

(** A bag that names its aggregate is accepted. *)
Example new_account_created :
  DomainEvent.new Fixtures.Guard_isEmpty Fixtures.convertPropsToObject
    Fixtures.Event_new ["AccountCreated"; "DomainEvent"; "Event"] []
    (JObject [("aggregateId", JInstance (Fixtures.an_id 3 "account-1"))])
  = Normal (DomainEvent.MkDomainEvent ["AccountCreated"; "DomainEvent"; "Event"]
              (JString "event-1") JUndefined false (JString "account-1") []).
Proof. reflexivity. Qed.

End DomainEventSpec.

(** ** The event bus router *)

Module EventBusRouterSpec.

(** C6.  [route(e)] hands [e] to one bus, once, and leaves the other bus
    alone: to the bus of uncommitted events when [e.isCommitted()] is
    false, to the bus of committed events when it is true; and the promise
    it returns settles as that one dispatch does. *)
Theorem route_spec :
  forall this h e,
    let call := EventBus.MkCall e (Heap.read_event h e) in
    (Heap.isCommitted h e = false ->
     (EventBusRouter.route this h e).1 =
       EventBusRouter.MkRouter
         (EventBus.MkBus
            (EventBus.behaviour (EventBusRouter.uncommittedEventBus this))
            (EventBus.received (EventBusRouter.uncommittedEventBus this) ++ [call]))
         (EventBusRouter.committedEventBus this) /\
     (EventBusRouter.route this h e).2 =
       EventBus.behaviour (EventBusRouter.uncommittedEventBus this)
         (EventBus.received (EventBusRouter.uncommittedEventBus this)) call) /\
    (Heap.isCommitted h e = true ->
     (EventBusRouter.route this h e).1 =
       EventBusRouter.MkRouter
         (EventBusRouter.uncommittedEventBus this)
         (EventBus.MkBus
            (EventBus.behaviour (EventBusRouter.committedEventBus this))
            (EventBus.received (EventBusRouter.committedEventBus this) ++ [call])) /\
     (EventBusRouter.route this h e).2 =
       EventBus.behaviour (EventBusRouter.committedEventBus this)
         (EventBus.received (EventBusRouter.committedEventBus this)) call) /\
    length (EventBus.received
              (EventBusRouter.uncommittedEventBus (EventBusRouter.route this h e).1))
    + length (EventBus.received
                (EventBusRouter.committedEventBus (EventBusRouter.route this h e).1))
    = S (length (EventBus.received (EventBusRouter.uncommittedEventBus this))
         + length (EventBus.received (EventBusRouter.committedEventBus this))).
Proof.
  intros this h e call. unfold EventBusRouter.route, EventBus.dispatch.
  destruct (Heap.isCommitted h e); simpl.
  - split; [discriminate|]. split; [intros _; split; reflexivity|].
    rewrite length_app. simpl. lia.
  - split; [intros _; split; reflexivity|]. split; [discriminate|].
    rewrite length_app. simpl. lia.
Qed.

Lemma route_spec_witness :
  EventBus.received
    (EventBusRouter.uncommittedEventBus
       (EventBusRouter.route
          (EventBusRouter.MkRouter Fixtures.accepting_bus Fixtures.rejecting_bus)
          (AggregateRoot.heap Fixtures.an_account) 1).1)
  = [EventBus.MkCall 1 (Fixtures.deposited 5)] /\
  EventBus.received
    (EventBusRouter.committedEventBus
       (EventBusRouter.route
          (EventBusRouter.MkRouter Fixtures.accepting_bus Fixtures.rejecting_bus)
          (Heap.commit 1 (AggregateRoot.heap Fixtures.an_account)) 1).1)
  = [EventBus.MkCall 1 (DomainEvent.commit (Fixtures.deposited 5))].
Proof.
  split.
  - rewrite (proj1 (proj1 (route_spec
      (EventBusRouter.MkRouter Fixtures.accepting_bus Fixtures.rejecting_bus)
      (AggregateRoot.heap Fixtures.an_account) 1) eq_refl)).
    reflexivity.
  - rewrite (proj1 (proj1 (proj2 (route_spec
      (EventBusRouter.MkRouter Fixtures.accepting_bus Fixtures.rejecting_bus)
      (Heap.commit 1 (AggregateRoot.heap Fixtures.an_account)) 1)) eq_refl)).
    reflexivity.
Defined.

End EventBusRouterSpec.

(** ** The heap *)

Module HeapFacts.

Lemma read_array_push_eq h a e :
  Heap.valid_array h a ->
  Heap.read_array (Heap.push a e h) a = Heap.read_array h a ++ [e].
Proof.
  unfold Heap.valid_array, Heap.read_array, Heap.push; simpl. intros H.
  rewrite list_lookup_alter_eq.
  destruct (lookup_lt_is_Some_2 _ _ H) as [xs E]. rewrite E. reflexivity.
Qed.

Lemma read_array_push_ne h a b e :
  a <> b -> Heap.read_array (Heap.push a e h) b = Heap.read_array h b.
Proof.
  intros H. unfold Heap.read_array, Heap.push; simpl.
  rewrite list_lookup_alter_ne by exact H. reflexivity.
Qed.

Lemma valid_array_push h a b e :
  Heap.valid_array (Heap.push a e h) b <-> Heap.valid_array h b.
Proof. unfold Heap.valid_array, Heap.push; simpl. rewrite length_alter. tauto. Qed.

Lemma alloc_array_fst xs h : (Heap.alloc_array xs h).1 = length (Heap.arrays h).
Proof. reflexivity. Qed.

Lemma alloc_array_not_valid xs h :
  ~ Heap.valid_array h (Heap.alloc_array xs h).1.
Proof. unfold Heap.valid_array; simpl. lia. Qed.

Lemma read_array_alloc_new xs h :
  Heap.read_array (Heap.alloc_array xs h).2 (Heap.alloc_array xs h).1 = xs.
Proof.
  unfold Heap.read_array; simpl.
  rewrite list_lookup_middle by reflexivity. reflexivity.
Qed.

Lemma read_array_alloc_old xs h b :
  Heap.valid_array h b ->
  Heap.read_array (Heap.alloc_array xs h).2 b = Heap.read_array h b.
Proof.
  unfold Heap.valid_array, Heap.read_array; simpl. intros H.
  rewrite lookup_app_l by exact H. reflexivity.
Qed.

Lemma valid_array_alloc xs h b :
  Heap.valid_array (Heap.alloc_array xs h).2 b <->
  Heap.valid_array h b \/ b = (Heap.alloc_array xs h).1.
Proof.
  unfold Heap.valid_array; simpl. rewrite length_app; simpl. lia.
Qed.

Lemma events_alloc_array xs h :
  Heap.events (Heap.alloc_array xs h).2 = Heap.events h.
Proof. reflexivity. Qed.

Lemma commit_idempotent ev :
  DomainEvent.commit (DomainEvent.commit ev) = DomainEvent.commit ev.
Proof. reflexivity. Qed.

(** Committing the events of a list, one after the other, commits exactly
    those events and touches no array. *)
Lemma foldl_commit es h :
  Heap.arrays (foldl (fun h e => Heap.commit e h) h es) = Heap.arrays h /\
  forall i,
    Heap.events (foldl (fun h e => Heap.commit e h) h es) !! i =
    (if bool_decide (i ∈ es) then DomainEvent.commit else fun ev => ev)
      <$> Heap.events h !! i.
Proof.
  revert h. induction es as [|e es IH]; intros h; simpl.
  - split; [reflexivity|]. intros i. destruct (Heap.events h !! i); reflexivity.
  - destruct (IH (Heap.commit e h)) as [Ha He]. split; [rewrite Ha; reflexivity|].
    intros i. rewrite He. unfold Heap.commit; simpl.
    rewrite list_lookup_alter.
    destruct (decide (e = i)) as [->|Hne].
    + rewrite (bool_decide_eq_true_2 (i ∈ i :: es)) by apply list_elem_of_here.
      destruct (Heap.events h !! i); simpl; [|reflexivity].
      destruct (bool_decide (i ∈ es)); reflexivity.
    + assert (Hiff : bool_decide (i ∈ e :: es) = bool_decide (i ∈ es)).
      { apply bool_decide_ext. rewrite elem_of_cons. split; [|auto].
        intros [->|H]; [contradiction|exact H]. }
      rewrite Hiff. reflexivity.
Qed.

Lemma read_event_lookup h e ev :
  Heap.events h !! e = Some ev -> Heap.read_event h e = ev.
Proof. unfold Heap.read_event. intros ->. reflexivity. Qed.

Lemma valid_event_lookup h e :
  Heap.valid_event h e -> Heap.events h !! e = Some (Heap.read_event h e).
Proof.
  unfold Heap.valid_event, Heap.read_event. intros H.
  destruct (lookup_lt_is_Some_2 _ _ H) as [ev E]. rewrite E. reflexivity.
Qed.

Lemma read_event_commit_eq h e :
  Heap.valid_event h e ->
  Heap.read_event (Heap.commit e h) e = DomainEvent.commit (Heap.read_event h e).
Proof.
  intros H. apply read_event_lookup. unfold Heap.commit; simpl.
  rewrite list_lookup_alter_eq, (valid_event_lookup _ _ H). reflexivity.
Qed.

Lemma read_event_commit_ne h e e' :
  e <> e' -> Heap.read_event (Heap.commit e h) e' = Heap.read_event h e'.
Proof.
  intros H. unfold Heap.read_event, Heap.commit; simpl.
  rewrite list_lookup_alter_ne by exact H. reflexivity.
Qed.

Lemma valid_event_commit h e e' :
  Heap.valid_event (Heap.commit e h) e' <-> Heap.valid_event h e'.
Proof. unfold Heap.valid_event, Heap.commit; simpl. rewrite length_alter. tauto. Qed.

End HeapFacts.

(** ** The aggregate root *)

Module AggregateRootSpec.

Import AggregateRoot Reading.

Section Facts.

Variable S : Type.
Variable Guard_isEmpty : JsValue -> bool.
Variable validate : Entity.t -> list ExceptionBase.
Variable apply : Z * S -> DomainEvent.t -> Z * S.
Variable correlationId : string.
Variable Id_toString : ValueObjectInstance -> string.

Abbreviation new := (AggregateRoot.new S Guard_isEmpty validate).
Abbreviation applyChange := (AggregateRoot.applyChange S apply).
Abbreviation loadsFromHistory := (AggregateRoot.loadsFromHistory S apply).
Abbreviation publishEvents :=
  (AggregateRoot.publishEvents S correlationId Id_toString).
Abbreviation publish_map := (AggregateRoot.publish_map S correlationId Id_toString).
Abbreviation run_all := (AggregateRoot.run_all S apply correlationId Id_toString).

Implicit Types (w : World S) (e : loc).

(** *** Construction *)

Lemma new_spec now c name s0 h w0 :
  new now c name s0 h = Normal w0 ->
  version (this w0) = 0%Z /\
  ledger w0 = [] /\
  wf w0 /\
  state (this w0) = s0 /\
  Heap.events (heap w0) = Heap.events h.
Proof.
  unfold AggregateRoot.new.
  destruct (Entity.new Guard_isEmpty validate now c) as [en|t]; simpl;
    [|discriminate].
  intros H. injection H as <-.
  unfold wf, ledger, Heap.valid_array, Heap.read_array; simpl.
  rewrite list_lookup_middle by reflexivity. simpl.
  repeat split.
  - rewrite length_app; simpl. lia.
  - constructor.
Qed.

(** *** [applyChange] and [pullDomainEvents] *)

Lemma applyChange_ledger w e :
  Heap.valid_array (heap w) (_domainEvents (this w)) ->
  ledger (applyChange e w) = ledger w ++ [e] /\
  _domainEvents (this (applyChange e w)) = _domainEvents (this w) /\
  length (Heap.arrays (heap (applyChange e w))) = length (Heap.arrays (heap w)).
Proof.
  intros Hv. unfold AggregateRoot.applyChange, applyInternalEventChanges, ledger.
  simpl. split; [apply HeapFacts.read_array_push_eq; exact Hv|].
  split; [reflexivity|]. apply length_alter.
Qed.

Lemma applyChange_heap w e :
  heap (applyChange e w) = Heap.push (_domainEvents (this w)) e (heap w).
Proof. reflexivity. Qed.

Lemma pull_spec w :
  (pullDomainEvents w).1 = length (Heap.arrays (heap w)) /\
  _domainEvents (this (pullDomainEvents w).2) = Datatypes.S (length (Heap.arrays (heap w))) /\
  Heap.read_array (heap (pullDomainEvents w).2) (pullDomainEvents w).1 = ledger w /\
  ledger (pullDomainEvents w).2 = [] /\
  (forall b, Heap.valid_array (heap w) b ->
             Heap.read_array (heap (pullDomainEvents w).2) b
             = Heap.read_array (heap w) b) /\
  Heap.events (heap (pullDomainEvents w).2) = Heap.events (heap w).
Proof.
  unfold pullDomainEvents, Heap.slice, ledger, Heap.alloc_array, Heap.read_array,
    Heap.valid_array. simpl.
  split; [reflexivity|]. split; [rewrite length_app; simpl; lia|].
  split.
  { rewrite lookup_app_l by (rewrite length_app; simpl; lia).
    rewrite list_lookup_middle by reflexivity. reflexivity. }
  split.
  { rewrite list_lookup_middle by reflexivity. reflexivity. }
  split; [|reflexivity].
  intros b Hb.
  rewrite lookup_app_l by (rewrite length_app; simpl; lia).
  rewrite lookup_app_l by exact Hb. reflexivity.
Qed.

(** C1.  [applyChange(e)] appends [e] to the ledger.  The following
    [pullDomainEvents()] returns an array that holds the events of the
    ledger in the order they were added, [e] last; that array is a new
    object, neither the ledger's array before the call nor after it, so
    later changes of the ledger do not show in it; and the ledger is then
    empty, so a second pull returns an empty array.  On an aggregate that
    has just been constructed, the first pull after one [applyChange(e)]
    returns exactly [[e]]. *)
Theorem applyChange_then_pull :
  forall e,
    (forall w,
        Heap.valid_array (heap w) (_domainEvents (this w)) ->
        let w1 := applyChange e w in
        let first := pullDomainEvents w1 in
        let second := pullDomainEvents first.2 in
        ledger w1 = ledger w ++ [e] /\
        Heap.read_array (heap first.2) first.1 = ledger w ++ [e] /\
        first.1 <> _domainEvents (this w1) /\
        first.1 <> _domainEvents (this first.2) /\
        ledger first.2 = [] /\
        Heap.read_array (heap second.2) second.1 = [] /\
        Heap.read_array (heap second.2) first.1 = ledger w ++ [e] /\
        (forall e',
            Heap.read_array (heap (applyChange e' first.2)) first.1
            = ledger w ++ [e])) /\
    (forall now c name s0 h w0,
        new now c name s0 h = Normal w0 ->
        let first := pullDomainEvents (applyChange e w0) in
        Heap.read_array (heap first.2) first.1 = [e] /\
        Heap.read_array (heap (pullDomainEvents first.2).2)
          (pullDomainEvents first.2).1 = []).
Proof.
  intros e.
  assert (Hgen : forall w,
    Heap.valid_array (heap w) (_domainEvents (this w)) ->
    let w1 := applyChange e w in
    let first := pullDomainEvents w1 in
    let second := pullDomainEvents first.2 in
    ledger w1 = ledger w ++ [e] /\
    Heap.read_array (heap first.2) first.1 = ledger w ++ [e] /\
    first.1 <> _domainEvents (this w1) /\
    first.1 <> _domainEvents (this first.2) /\
    ledger first.2 = [] /\
    Heap.read_array (heap second.2) second.1 = [] /\
    Heap.read_array (heap second.2) first.1 = ledger w ++ [e] /\
    (forall e',
        Heap.read_array (heap (applyChange e' first.2)) first.1
        = ledger w ++ [e])).
  { intros w Hv w1 first second.
    destruct (applyChange_ledger w e Hv) as (Hl & Hd & Hlen).
    destruct (pull_spec w1) as (Hf1 & Hf2 & Hf3 & Hf4 & Hf5 & _).
    destruct (pull_spec first.2) as (Hs1 & _ & Hs3 & _ & Hs5 & _).
    fold w1 in Hl, Hd, Hlen. fold first in Hf1, Hf2, Hf3, Hf4, Hf5.
    fold first in Hs1, Hs3, Hs5. fold second in Hs1, Hs3, Hs5.
    assert (Hvalid1 : Heap.valid_array (heap first.2) first.1).
    { unfold Heap.valid_array. rewrite Hf1.
      unfold first, pullDomainEvents, Heap.slice, Heap.alloc_array. simpl.
      rewrite !length_app. simpl. lia. }
    split; [exact Hl|].
    split; [rewrite Hf3; exact Hl|].
    split; [rewrite Hf1, Hd, Hlen; unfold Heap.valid_array in Hv; lia|].
    split; [rewrite Hf1, Hf2; lia|].
    split; [exact Hf4|].
    split; [rewrite Hs3; exact Hf4|].
    split; [rewrite Hs5 by exact Hvalid1; rewrite Hf3; exact Hl|].
    intros e'. rewrite applyChange_heap.
    rewrite HeapFacts.read_array_push_ne.
    - rewrite Hf3. exact Hl.
    - rewrite Hf1, Hf2. lia. }
  split; [exact Hgen|].
  intros now c name s0 h w0 Hnew first.
  destruct (new_spec _ _ _ _ _ _ Hnew) as (_ & Hl0 & (Hv0 & _) & _).
  destruct (Hgen w0 Hv0) as (_ & H2 & _ & _ & _ & H6 & _).
  rewrite Hl0 in H2. split; [exact H2|exact H6].
Qed.

(** *** [loadsFromHistory] *)

Lemma loadsFromHistory_cons event rest C w :
  loadsFromHistory (event :: rest) C w =
  if DomainEvent.instanceof (Heap.read_event (heap w) event) C
  then loadsFromHistory rest C w
  else loadsFromHistory rest C (applyInternalEventChanges S apply event false w).
Proof. reflexivity. Qed.

Lemma replayed_cons h event rest C :
  replayed h (event :: rest) C =
  if DomainEvent.instanceof (Heap.read_event h event) C
  then replayed h rest C
  else Heap.read_event h event :: replayed h rest C.
Proof.
  unfold replayed. cbn [fmap list_fmap List.filter].
  destruct (DomainEvent.instanceof (Heap.read_event h event) C); reflexivity.
Qed.

Lemma loadsFromHistory_frame history C w :
  heap (loadsFromHistory history C w) = heap w /\
  entity (this (loadsFromHistory history C w)) = entity (this w) /\
  class_name (this (loadsFromHistory history C w)) = class_name (this w) /\
  _domainEvents (this (loadsFromHistory history C w)) = _domainEvents (this w) /\
  (version (this (loadsFromHistory history C w)),
   state (this (loadsFromHistory history C w)))
  = foldl apply (version (this w), state (this w)) (replayed (heap w) history C).
Proof.
  revert w. induction history as [|event rest IH]; intros w.
  - repeat split.
  - rewrite loadsFromHistory_cons, replayed_cons.
    destruct (DomainEvent.instanceof (Heap.read_event (heap w) event) C).
    + apply IH.
    + destruct (IH (applyInternalEventChanges S apply event false w))
        as (H1 & H2 & H3 & H4 & H5).
      rewrite H1, H2, H3, H4, H5. repeat split.
      cbn [foldl negb]. f_equal.
      unfold applyInternalEventChanges, set_visible. cbn [this version state].
      destruct (apply (version (this w), state (this w))
                  (Heap.read_event (heap w) event)); reflexivity.
Qed.

(** C2.  [loadsFromHistory(history, C)] leaves the heap as it is, and with
    it the ledger and every array; what it changes of the aggregate is
    what the [apply] hook of the subclass computes, run over the events of
    the history that are not instances of [C], in the order of the
    stream.  So a pull after a replay on a new aggregate returns an empty
    array. *)
Theorem loadsFromHistory_spec :
  forall history C,
    (forall w,
        heap (loadsFromHistory history C w) = heap w /\
        ledger (loadsFromHistory history C w) = ledger w /\
        _domainEvents (this (loadsFromHistory history C w))
        = _domainEvents (this w) /\
        (version (this (loadsFromHistory history C w)),
         state (this (loadsFromHistory history C w)))
        = foldl apply (version (this w), state (this w))
            (replayed (heap w) history C)) /\
    (forall now c name s0 h w0,
        new now c name s0 h = Normal w0 ->
        let pulled := pullDomainEvents (loadsFromHistory history C w0) in
        Heap.read_array (heap pulled.2) pulled.1 = []).
Proof.
  intros history C.
  assert (Hgen : forall w,
    heap (loadsFromHistory history C w) = heap w /\
    ledger (loadsFromHistory history C w) = ledger w /\
    _domainEvents (this (loadsFromHistory history C w))
    = _domainEvents (this w) /\
    (version (this (loadsFromHistory history C w)),
     state (this (loadsFromHistory history C w)))
    = foldl apply (version (this w), state (this w))
        (replayed (heap w) history C)).
  { intros w. destruct (loadsFromHistory_frame history C w)
      as (H1 & _ & _ & H4 & H5).
    split; [exact H1|]. split; [|split; [exact H4|exact H5]].
    unfold ledger. rewrite H1, H4. reflexivity. }
  split; [exact Hgen|].
  intros now c name s0 h w0 Hnew pulled.
  destruct (new_spec _ _ _ _ _ _ Hnew) as (_ & Hl0 & _).
  destruct (Hgen w0) as (_ & Hl & _).
  destruct (pull_spec (loadsFromHistory history C w0)) as (_ & _ & H3 & _).
  fold pulled in H3. rewrite H3, Hl. exact Hl0.
Qed.

(** *** [commitEvents] *)

Lemma heap_eq (h1 h2 : Heap.t) :
  Heap.arrays h1 = Heap.arrays h2 -> Heap.events h1 = Heap.events h2 -> h1 = h2.
Proof. destruct h1, h2; simpl; intros -> ->; reflexivity. Qed.

Lemma commitEvents_frame w :
  this (commitEvents w) = this w /\
  Heap.arrays (heap (commitEvents w)) = Heap.arrays (heap w) /\
  ledger (commitEvents w) = ledger w.
Proof.
  unfold commitEvents, ledger, Heap.read_array; simpl.
  destruct (HeapFacts.foldl_commit
              (Heap.read_array (heap w) (_domainEvents (this w))) (heap w))
    as [Ha _].
  unfold Heap.read_array in Ha. rewrite Ha. repeat split.
Qed.

Lemma commitEvents_events w i :
  Heap.events (heap (commitEvents w)) !! i =
  (if bool_decide (i ∈ ledger w) then DomainEvent.commit else fun ev => ev)
    <$> Heap.events (heap w) !! i.
Proof.
  unfold commitEvents; simpl.
  apply (HeapFacts.foldl_commit (ledger w) (heap w)).
Qed.

Lemma commitEvents_committed w e :
  e ∈ ledger w -> Heap.valid_event (heap w) e ->
  Heap.isCommitted (heap (commitEvents w)) e = true /\
  Heap.read_event (heap (commitEvents w)) e
  = DomainEvent.commit (Heap.read_event (heap w) e).
Proof.
  intros Hin Hv.
  assert (Hr : Heap.read_event (heap (commitEvents w)) e
               = DomainEvent.commit (Heap.read_event (heap w) e)).
  { apply HeapFacts.read_event_lookup. rewrite commitEvents_events.
    rewrite (bool_decide_eq_true_2 _ Hin).
    rewrite (HeapFacts.valid_event_lookup _ _ Hv). reflexivity. }
  split; [|exact Hr]. unfold Heap.isCommitted. rewrite Hr. reflexivity.
Qed.

(** C7.  [commitEvents()] sets [committed] on the events of the ledger
    and changes nothing else: the aggregate, its ledger and every array
    are as before, an event outside the ledger is untouched, and of an
    event in the ledger only the flag changes.  It is handed no bus, so
    it dispatches nothing.  [commit()] only ever sets the flag, so a
    second [commitEvents()] changes nothing at all. *)
Theorem commitEvents_spec :
  forall w,
    this (commitEvents w) = this w /\
    Heap.arrays (heap (commitEvents w)) = Heap.arrays (heap w) /\
    ledger (commitEvents w) = ledger w /\
    (forall i,
        Heap.events (heap (commitEvents w)) !! i =
        (if bool_decide (i ∈ ledger w) then DomainEvent.commit else fun ev => ev)
          <$> Heap.events (heap w) !! i) /\
    (forall e,
        e ∈ ledger w -> Heap.valid_event (heap w) e ->
        Heap.isCommitted (heap (commitEvents w)) e = true /\
        Heap.read_event (heap (commitEvents w)) e
        = DomainEvent.commit (Heap.read_event (heap w) e)) /\
    (forall e,
        e ∉ ledger w ->
        Heap.read_event (heap (commitEvents w)) e = Heap.read_event (heap w) e) /\
    (forall ev,
        DomainEvent.isCommitted (DomainEvent.commit ev) = true /\
        DomainEvent.commit (DomainEvent.commit ev) = DomainEvent.commit ev /\
        DomainEvent.class_chain (DomainEvent.commit ev) = DomainEvent.class_chain ev /\
        DomainEvent.id (DomainEvent.commit ev) = DomainEvent.id ev /\
        DomainEvent.metadata (DomainEvent.commit ev) = DomainEvent.metadata ev /\
        DomainEvent.aggregateId (DomainEvent.commit ev) = DomainEvent.aggregateId ev /\
        DomainEvent.payload (DomainEvent.commit ev) = DomainEvent.payload ev) /\
    commitEvents (commitEvents w) = commitEvents w.
Proof.
  intros w. destruct (commitEvents_frame w) as (Ht & Ha & Hl).
  split; [exact Ht|]. split; [exact Ha|]. split; [exact Hl|].
  split; [apply commitEvents_events|].
  split; [apply commitEvents_committed|].
  split.
  { intros e Hnin. unfold Heap.read_event. rewrite commitEvents_events.
    rewrite (bool_decide_eq_false_2 _ Hnin).
    destruct (Heap.events (heap w) !! e); reflexivity. }
  split; [intros ev; repeat split|].
  assert (Hh : heap (commitEvents (commitEvents w)) = heap (commitEvents w)).
  { apply heap_eq.
    - apply (commitEvents_frame (commitEvents w)).
    - apply list_eq. intros i.
      rewrite (commitEvents_events (commitEvents w)), Hl, commitEvents_events.
      destruct (Heap.events (heap w) !! i); simpl; [|reflexivity].
      destruct (bool_decide (i ∈ ledger w)); reflexivity. }
  destruct (commitEvents_frame (commitEvents w)) as (Ht2 & _).
  destruct (commitEvents (commitEvents w)) as [h2 t2].
  destruct (commitEvents w) as [h1 t1]. simpl in *. subst. reflexivity.
Qed.

(** *** [publishEvents] *)

Lemma commit_read_event_commit h e e' :
  DomainEvent.commit (Heap.read_event (Heap.commit e h) e')
  = DomainEvent.commit (Heap.read_event h e').
Proof.
  unfold Heap.read_event, Heap.commit; simpl. rewrite list_lookup_alter.
  destruct (decide (e = e')) as [->|Hne]; [|reflexivity].
  destruct (Heap.events h !! e'); reflexivity.
Qed.

Lemma committed_calls_commit h e es :
  committed_calls (Heap.commit e h) es = committed_calls h es.
Proof.
  unfold committed_calls. apply list_fmap_ext. intros i e' _.
  rewrite commit_read_event_commit. reflexivity.
Qed.

Lemma publish_map_spec o es :
  forall h logger bus,
    Forall (Heap.valid_event h) es ->
    (publish_map o es (h, logger, bus)).1.1.1
    = foldl (fun h e => Heap.commit e h) h es /\
    EventBus.received (publish_map o es (h, logger, bus)).1.2
    = EventBus.received bus ++ committed_calls h es /\
    EventBus.behaviour (publish_map o es (h, logger, bus)).1.2
    = EventBus.behaviour bus /\
    length (publish_map o es (h, logger, bus)).1.1.2
    = length logger + length es /\
    length (publish_map o es (h, logger, bus)).2 = length es.
Proof.
  induction es as [|e es IH]; intros h logger bus Hv.
  - simpl. unfold committed_calls. simpl. rewrite app_nil_r.
    repeat split. lia.
  - apply Forall_cons in Hv. destruct Hv as [Hve Hves].
    cbn [AggregateRoot.publish_map publish_event EventBus.dispatch].
    specialize (IH (Heap.commit e h)
                  (debug (published_message S correlationId Id_toString o
                            (Heap.read_event h e)) logger)
                  (EventBus.MkBus (EventBus.behaviour bus)
                     (EventBus.received bus
                      ++ [EventBus.MkCall e (Heap.read_event (Heap.commit e h) e)]))).
    destruct (publish_map o es _) as [[[h' logger'] bus'] promises] eqn:E.
    cbn [fst snd] in *.
    destruct IH as (H1 & H2 & H3 & H4 & H5).
    { eapply Forall_impl; [exact Hves|]. intros x Hx.
      apply HeapFacts.valid_event_commit. exact Hx. }
    split; [exact H1|].
    split.
    { rewrite H2. cbn [EventBus.received]. rewrite <- app_assoc. f_equal.
      rewrite committed_calls_commit.
      rewrite HeapFacts.read_event_commit_eq by exact Hve. reflexivity. }
    split; [exact H3|].
    split.
    { rewrite H4. unfold debug. rewrite length_app. simpl. lia. }
    simpl. rewrite H5. reflexivity.
Qed.

Lemma clearEvents_ledger w :
  ledger (clearEvents w) = [] /\
  Heap.events (heap (clearEvents w)) = Heap.events (heap w).
Proof.
  unfold clearEvents, ledger, Heap.read_array; simpl.
  rewrite list_lookup_middle by reflexivity. split; reflexivity.
Qed.

Lemma publishEvents_unfold logger bus w :
  publishEvents logger bus w =
  let initiated := publish_map (this w) (ledger w) (heap w, logger, bus) in
  let w' := MkWorld initiated.1.1.1 (this w) in
  match Promise_all initiated.2 with
  | EventBus.Fulfilled =>
      (clearEvents w', initiated.1.1.2, initiated.1.2, EventBus.Fulfilled)
  | EventBus.Rejected => (w', initiated.1.1.2, initiated.1.2, EventBus.Rejected)
  end.
Proof.
  unfold AggregateRoot.publishEvents.
  destruct (publish_map (this w) (ledger w) (heap w, logger, bus))
    as [[[h' logger'] bus'] promises].
  reflexivity.
Qed.

(** C3 (as amended).  [publishEvents(logger, eventBus)] hands the bus
    every event of the ledger, once, in the order of the ledger, each
    already committed when it is handed over; when the last dispatch has
    been initiated the ledger is still whole.  The promise is fulfilled
    when every dispatch is, and then the ledger is cleared and a following
    pull returns an empty array.  When a dispatch is rejected the promise
    is rejected and the ledger is not cleared: it holds the same events,
    now committed. *)
Theorem publishEvents_spec :
  forall logger bus w,
    wf w ->
    let initiated := publish_map (this w) (ledger w) (heap w, logger, bus) in
    let result := publishEvents logger bus w in
    EventBus.received initiated.1.2
    = EventBus.received bus ++ committed_calls (heap w) (ledger w) /\
    Forall (fun c => DomainEvent.isCommitted (EventBus.call_seen c) = true)
      (committed_calls (heap w) (ledger w)) /\
    EventBus.call_event <$> committed_calls (heap w) (ledger w) = ledger w /\
    Heap.read_array initiated.1.1.1 (_domainEvents (this w)) = ledger w /\
    EventBus.received result.1.2 = EventBus.received initiated.1.2 /\
    result.2 = Promise_all initiated.2 /\
    (forall e, e ∈ ledger w -> Heap.isCommitted (heap result.1.1.1) e = true) /\
    (result.2 = EventBus.Fulfilled ->
     ledger result.1.1.1 = [] /\
     Heap.read_array (heap (pullDomainEvents result.1.1.1).2)
       (pullDomainEvents result.1.1.1).1 = []) /\
    (result.2 = EventBus.Rejected ->
     this result.1.1.1 = this w /\
     ledger result.1.1.1 = ledger w /\
     Heap.read_array (heap (pullDomainEvents result.1.1.1).2)
       (pullDomainEvents result.1.1.1).1 = ledger w).
Proof.
  intros logger bus w [Hva Hve] initiated result.
  destruct (publish_map_spec (this w) (ledger w) (heap w) logger bus Hve)
    as (H1 & H2 & _ & _ & _).
  fold initiated in H1, H2.
  destruct (commitEvents_frame w) as (_ & Ha & Hl).
  assert (Hh : initiated.1.1.1 = heap (commitEvents w)) by exact H1.
  assert (Hcommitted : forall e, e ∈ ledger w ->
            Heap.isCommitted initiated.1.1.1 e = true).
  { intros e Hin. rewrite Hh.
    apply commitEvents_committed; [exact Hin|].
    eapply Forall_forall in Hve; eauto. }
  assert (Hledger : Heap.read_array initiated.1.1.1 (_domainEvents (this w))
                    = ledger w).
  { rewrite Hh. exact Hl. }
  split; [exact H2|].
  split.
  { unfold committed_calls. apply Forall_fmap, Forall_forall. intros e _.
    reflexivity. }
  split.
  { unfold committed_calls. rewrite <- list_fmap_compose.
    apply list_fmap_id. }
  split; [exact Hledger|].
  unfold result. rewrite publishEvents_unfold. fold initiated. cbv zeta.
  destruct (Promise_all initiated.2) eqn:EP; cbn [fst snd].
  - split; [reflexivity|]. split; [reflexivity|].
    destruct (clearEvents_ledger (MkWorld initiated.1.1.1 (this w)))
      as (Hc1 & Hc2).
    split.
    { intros e Hin. specialize (Hcommitted e Hin).
      unfold Heap.isCommitted, Heap.read_event in *.
      rewrite Hc2. exact Hcommitted. }
    split; [|discriminate].
    intros _. split; [exact Hc1|].
    destruct (pull_spec (clearEvents (MkWorld initiated.1.1.1 (this w))))
      as (_ & _ & H3 & _).
    rewrite H3. exact Hc1.
  - split; [reflexivity|]. split; [reflexivity|].
    split; [exact Hcommitted|]. split; [discriminate|].
    intros _. split; [reflexivity|]. split; [exact Hledger|].
    destruct (pull_spec (MkWorld initiated.1.1.1 (this w))) as (_ & _ & H3 & _).
    rewrite H3. exact Hledger.
Qed.

(** *** The [version] counter *)

Lemma foldl_apply_version evs :
  (forall vs ev, (apply vs ev).1 = vs.1) ->
  forall vs, (foldl apply vs evs).1 = vs.1.
Proof.
  intros Hframe. induction evs as [|ev evs IH]; intros vs; simpl; [reflexivity|].
  rewrite IH. apply Hframe.
Qed.

Lemma run_version op w :
  (forall vs ev, (apply vs ev).1 = vs.1) ->
  version (this (run S apply correlationId Id_toString op w)) = version (this w).
Proof.
  intros Hframe. destruct op as [e|history C| | | |logger bus];
    cbn [AggregateRoot.run].
  - unfold AggregateRoot.applyChange, applyInternalEventChanges. simpl.
    apply Hframe.
  - destruct (loadsFromHistory_frame history C w) as (_ & _ & _ & _ & H5).
    apply (f_equal fst) in H5. simpl in H5. rewrite H5.
    apply foldl_apply_version. exact Hframe.
  - reflexivity.
  - reflexivity.
  - reflexivity.
  - rewrite publishEvents_unfold. cbv zeta.
    destruct (Promise_all _); reflexivity.
Qed.

(** C10.  [version] is 0 when the constructor returns, and the core never
    assigns it afterwards: [pullDomainEvents], [commitEvents],
    [clearEvents] and [publishEvents] leave it as it is, and [applyChange]
    and [loadsFromHistory] leave it as the [apply] hook of the subclass
    leaves it, event after event.  So with a hook that does not assign
    [version], any sequence of the six operations ends with the [version]
    it started with, which is 0 on a constructed aggregate. *)
Theorem version_only_moves_in_apply :
  (forall now c name s0 h w0,
      new now c name s0 h = Normal w0 -> version (this w0) = 0%Z) /\
  (forall w, version (this (pullDomainEvents w).2) = version (this w)) /\
  (forall w, version (this (commitEvents w)) = version (this w)) /\
  (forall w, version (this (clearEvents w)) = version (this w)) /\
  (forall logger bus w,
      version (this (publishEvents logger bus w).1.1.1) = version (this w)) /\
  (forall event w,
      version (this (applyChange event w))
      = (apply (version (this w), state (this w))
           (Heap.read_event (heap w) event)).1) /\
  (forall history C w,
      version (this (loadsFromHistory history C w))
      = (foldl apply (version (this w), state (this w))
           (replayed (heap w) history C)).1) /\
  ((forall vs ev, (apply vs ev).1 = vs.1) ->
   (forall ops w, version (this (run_all ops w)) = version (this w)) /\
   (forall now c name s0 h w0 ops,
       new now c name s0 h = Normal w0 ->
       version (this (run_all ops w0)) = 0%Z)).
Proof.
  split; [intros now c name s0 h w0 Hnew; apply (new_spec _ _ _ _ _ _ Hnew)|].
  split; [reflexivity|]. split; [reflexivity|]. split; [reflexivity|].
  split.
  { intros logger bus w. rewrite publishEvents_unfold. cbv zeta.
    destruct (Promise_all _); reflexivity. }
  split.
  { intros event w.
    unfold AggregateRoot.applyChange, applyInternalEventChanges. simpl.
    reflexivity. }
  split.
  { intros history C w.
    destruct (loadsFromHistory_frame history C w) as (_ & _ & _ & _ & H5).
    apply (f_equal fst) in H5. exact H5. }
  intros Hframe.
  assert (Hops : forall ops w, version (this (run_all ops w)) = version (this w)).
  { induction ops as [|op ops IH]; intros w; [reflexivity|].
    unfold AggregateRoot.run_all in *. simpl. rewrite IH.
    apply run_version. exact Hframe. }
  split; [exact Hops|].
  intros now c name s0 h w0 ops Hnew. rewrite Hops.
  apply (new_spec _ _ _ _ _ _ Hnew).
Qed.

(** *** Further laws of the core *)

Abbreviation run := (AggregateRoot.run S apply correlationId Id_toString).
Abbreviation live es w := (run_all (AggregateRoot.ApplyChange <$> es) w).

Lemma run_all_cons op ops w : run_all (op :: ops) w = run_all ops (run op w).
Proof. reflexivity. Qed.

Lemma world_eta w : MkWorld (heap w) (this w) = w.
Proof. destruct w; reflexivity. Qed.

Lemma commit_committed ev :
  DomainEvent.isCommitted ev = true -> DomainEvent.commit ev = ev.
Proof. destruct ev; simpl; intros ->; reflexivity. Qed.

Lemma foldl_commit_length es h :
  length (Heap.events (foldl (fun h e => Heap.commit e h) h es))
  = length (Heap.events h).
Proof.
  revert h. induction es as [|e es IH]; intros h; simpl; [reflexivity|].
  rewrite IH. unfold Heap.commit; simpl. apply length_alter.
Qed.

Lemma publish_map_heap o es :
  forall h logger bus,
    (publish_map o es (h, logger, bus)).1.1.1
    = foldl (fun h e => Heap.commit e h) h es.
Proof.
  induction es as [|e es IH]; intros h logger bus; [reflexivity|].
  cbn [AggregateRoot.publish_map publish_event EventBus.dispatch].
  specialize (IH (Heap.commit e h)
                (debug (published_message S correlationId Id_toString o
                          (Heap.read_event h e)) logger)
                (EventBus.MkBus (EventBus.behaviour bus)
                   (EventBus.received bus
                    ++ [EventBus.MkCall e (Heap.read_event (Heap.commit e h) e)]))).
  destruct (publish_map o es _) as [[[h' logger'] bus'] promises].
  exact IH.
Qed.

Lemma class_chain_commit h e e' :
  DomainEvent.class_chain (Heap.read_event (Heap.commit e h) e')
  = DomainEvent.class_chain (Heap.read_event h e').
Proof.
  unfold Heap.read_event, Heap.commit; simpl. rewrite list_lookup_alter.
  destruct (decide (e = e')) as [->|Hne]; [|reflexivity].
  destruct (Heap.events h !! e'); reflexivity.
Qed.

Lemma publish_map_logger o es :
  forall h logger bus,
    (publish_map o es (h, logger, bus)).1.1.2
    = logger ++ ((fun e => published_message S correlationId Id_toString o
                             (Heap.read_event h e)) <$> es).
Proof.
  induction es as [|e es IH]; intros h logger bus.
  - simpl. symmetry. apply app_nil_r.
  - cbn [AggregateRoot.publish_map publish_event EventBus.dispatch].
    specialize (IH (Heap.commit e h)
                  (debug (published_message S correlationId Id_toString o
                            (Heap.read_event h e)) logger)
                  (EventBus.MkBus (EventBus.behaviour bus)
                     (EventBus.received bus
                      ++ [EventBus.MkCall e (Heap.read_event (Heap.commit e h) e)]))).
    destruct (publish_map o es _) as [[[h' logger'] bus'] promises].
    cbn [fst snd] in *. rewrite IH. unfold debug. rewrite <- app_assoc.
    f_equal. cbn [fmap list_fmap app]. f_equal.
    apply list_fmap_ext. intros i e' _.
    unfold published_message. rewrite class_chain_commit. reflexivity.
Qed.

Lemma publishEvents_events logger bus w :
  Heap.events (heap (publishEvents logger bus w).1.1.1)
  = Heap.events (heap (commitEvents w)).
Proof.
  rewrite publishEvents_unfold. cbv zeta.
  rewrite publish_map_heap.
  destruct (Promise_all _); reflexivity.
Qed.

(** What an operation does to the events: it commits some of them. *)
Lemma run_events op w :
  exists es,
    Heap.events (heap (run op w))
    = Heap.events (foldl (fun h e => Heap.commit e h) (heap w) es).
Proof.
  destruct op as [e|history C| | | |logger bus]; cbn [AggregateRoot.run].
  - exists []. reflexivity.
  - exists []. destruct (loadsFromHistory_frame history C w) as (-> & _).
    reflexivity.
  - exists []. apply pull_spec.
  - exists (ledger w). reflexivity.
  - exists []. apply clearEvents_ledger.
  - exists (ledger w). apply publishEvents_events.
Qed.

Lemma run_events_length op w :
  length (Heap.events (heap (run op w))) = length (Heap.events (heap w)).
Proof.
  destruct (run_events op w) as [es ->]. apply foldl_commit_length.
Qed.

Lemma valid_event_length h h' e :
  length (Heap.events h') = length (Heap.events h) ->
  Heap.valid_event h' e <-> Heap.valid_event h e.
Proof. unfold Heap.valid_event. intros H. rewrite H. split; intros Hx; exact Hx. Qed.

(** X1.  Whatever operations of the core run, the heap keeps the same events at
    the same addresses: each is as it was, or as it was with the flag set;
    an event that was committed stays exactly as it was. *)
Theorem events_only_ever_commit :
  forall ops w,
    length (Heap.events (heap (run_all ops w))) = length (Heap.events (heap w)) /\
    forall i ev,
      Heap.events (heap w) !! i = Some ev ->
      exists ev',
        Heap.events (heap (run_all ops w)) !! i = Some ev' /\
        Invariant.same_or_committed ev ev' /\
        (DomainEvent.isCommitted ev = true -> ev' = ev).
Proof.
  induction ops as [|op ops IH]; intros w.
  - split; [reflexivity|]. intros i ev H. exists ev.
    split; [exact H|]. split; [left; reflexivity|reflexivity].
  - rewrite run_all_cons. destruct (IH (run op w)) as [Hlen Hev].
    split; [rewrite Hlen; apply run_events_length|].
    intros i ev H.
    destruct (run_events op w) as [es Hes].
    assert (H1 : Heap.events (heap (run op w)) !! i
                 = Some ((if bool_decide (i ∈ es) then DomainEvent.commit
                          else fun ev => ev) ev)).
    { rewrite Hes. rewrite (proj2 (HeapFacts.foldl_commit es (heap w))).
      rewrite H. reflexivity. }
    destruct (Hev _ _ H1) as (ev' & H2 & H3 & H4).
    exists ev'. split; [exact H2|].
    destruct (bool_decide (i ∈ es)).
    + split.
      * right. destruct H3 as [->| ->]; reflexivity.
      * intros Hc. rewrite (commit_committed _ Hc) in H4, H3.
        apply H4. exact Hc.
    + split; [exact H3|exact H4].
Qed.

(** *** The ledger stays well formed *)

Lemma clearEvents_wf w : wf (clearEvents w).
Proof.
  split.
  - unfold clearEvents, Heap.valid_array; simpl. rewrite length_app; simpl. lia.
  - rewrite (proj1 (clearEvents_ledger w)). constructor.
Qed.

Lemma wf_same_arrays w w' :
  wf w ->
  Heap.arrays (heap w') = Heap.arrays (heap w) ->
  _domainEvents (this w') = _domainEvents (this w) ->
  length (Heap.events (heap w')) = length (Heap.events (heap w)) ->
  wf w'.
Proof.
  intros [Ha He] Harr Hd Hlen. unfold wf, ledger, Heap.valid_array,
    Heap.read_array in *. rewrite Harr, Hd. split; [exact Ha|].
  eapply Forall_impl; [exact He|]. intros x Hx.
  apply (valid_event_length (heap w) (heap w') x Hlen). exact Hx.
Qed.

Lemma run_wf op w :
  wf w -> Invariant.valid_operation (heap w) op -> wf (run op w).
Proof.
  intros Hwf Hop. pose proof Hwf as [Ha He].
  destruct op as [e|history C| | | |logger bus]; cbn [AggregateRoot.run].
  - destruct (applyChange_ledger w e Ha) as (Hl & Hd & Hlen). split.
    + unfold Heap.valid_array in *. rewrite Hd, Hlen. exact Ha.
    + rewrite Hl. apply Forall_app. split.
      * eapply Forall_impl; [exact He|]. intros x Hx. exact Hx.
      * constructor; [exact Hop|constructor].
  - destruct (loadsFromHistory_frame history C w) as (Hh & _ & _ & Hd & _).
    apply (wf_same_arrays w); [exact Hwf|rewrite Hh; reflexivity|exact Hd|].
    rewrite Hh. reflexivity.
  - destruct (pull_spec w) as (_ & Hd & _ & Hl & _ & _). split.
    + unfold Heap.valid_array. rewrite Hd.
      unfold pullDomainEvents, Heap.slice, Heap.alloc_array. simpl.
      rewrite !length_app. simpl. lia.
    + rewrite Hl. constructor.
  - destruct (commitEvents_frame w) as (Ht & Harr & _).
    apply (wf_same_arrays w); [exact Hwf|exact Harr|rewrite Ht; reflexivity|].
    apply foldl_commit_length.
  - apply clearEvents_wf.
  - rewrite publishEvents_unfold. cbv zeta.
    destruct (Promise_all _); cbn [fst]; [apply clearEvents_wf|].
    apply (wf_same_arrays w); [exact Hwf| |reflexivity|].
    + cbn [heap]. rewrite publish_map_heap.
      apply (HeapFacts.foldl_commit (ledger w) (heap w)).
    + cbn [heap]. rewrite publish_map_heap. apply foldl_commit_length.
Qed.

(** X2.  From a well-formed aggregate, a program that only applies live events
    keeps the aggregate well formed: the ledger is a live array, and every
    event in it is a live object. *)
Theorem wf_preserved :
  forall ops w,
    wf w ->
    Forall (Invariant.valid_operation (heap w)) ops ->
    wf (run_all ops w).
Proof.
  induction ops as [|op ops IH]; intros w Hwf Hops; [exact Hwf|].
  apply Forall_cons in Hops. destruct Hops as [Hop Hops].
  rewrite run_all_cons. apply IH; [apply run_wf; assumption|].
  eapply Forall_impl; [exact Hops|]. intros op' H'.
  destruct op'; simpl in *; try exact I.
  apply (valid_event_length (heap w) (heap (run op w)) event
           (run_events_length op w)). exact H'.
Qed.

(** *** Applying events *)

Lemma applyChange_visible e w :
  (version (this (applyChange e w)), state (this (applyChange e w)))
  = apply (version (this w), state (this w)) (Heap.read_event (heap w) e) /\
  Heap.events (heap (applyChange e w)) = Heap.events (heap w).
Proof.
  unfold AggregateRoot.applyChange, applyInternalEventChanges, set_visible.
  cbn [this version state heap Heap.push Heap.events].
  split; [|reflexivity].
  destruct (apply (version (this w), state (this w))
              (Heap.read_event (heap w) e)); reflexivity.
Qed.

Lemma live_spec es :
  forall w,
    Heap.valid_array (heap w) (_domainEvents (this w)) ->
    ledger (live es w) = ledger w ++ es /\
    _domainEvents (this (live es w)) = _domainEvents (this w) /\
    Heap.events (heap (live es w)) = Heap.events (heap w) /\
    (version (this (live es w)), state (this (live es w)))
    = foldl apply (version (this w), state (this w))
        (Heap.read_event (heap w) <$> es).
Proof.
  induction es as [|e es IH]; intros w Hv.
  - cbn. rewrite app_nil_r. repeat split.
  - cbn [fmap list_fmap]. rewrite run_all_cons. cbn [AggregateRoot.run].
    destruct (applyChange_ledger w e Hv) as (Hl & Hd & Hlen).
    destruct (applyChange_visible e w) as (Hvis & Hev).
    destruct (IH (applyChange e w)) as (H1 & H2 & H3 & H4).
    { unfold Heap.valid_array in *. rewrite Hd, Hlen. exact Hv. }
    rewrite H1, H2, H3, H4, Hl, Hd, Hev, Hvis.
    split; [rewrite <- app_assoc; reflexivity|].
    split; [reflexivity|]. split; [reflexivity|].
    cbn [foldl]. reflexivity.
Qed.

(** X3.  Applying events one after the other appends them to the ledger in
    that order, an event applied twice being there twice, and runs the
    [apply] hook on each in turn. *)
Theorem applyChange_sequence :
  forall es w,
    Heap.valid_array (heap w) (_domainEvents (this w)) ->
    ledger (live es w) = ledger w ++ es /\
    (version (this (live es w)), state (this (live es w)))
    = foldl apply (version (this w), state (this w))
        (Heap.read_event (heap w) <$> es) /\
    Heap.read_array (heap (pullDomainEvents (live es w)).2)
      (pullDomainEvents (live es w)).1 = ledger w ++ es.
Proof.
  intros es w Hv. destruct (live_spec es w Hv) as (H1 & _ & _ & H4).
  split; [exact H1|]. split; [exact H4|].
  rewrite (proj1 (proj2 (proj2 (pull_spec (live es w))))). exact H1.
Qed.

Lemma replayed_all h es C :
  Forall (fun e => DomainEvent.instanceof (Heap.read_event h e) C = false) es ->
  replayed h es C = Heap.read_event h <$> es.
Proof.
  induction es as [|e es IH]; intros H; [reflexivity|].
  apply Forall_cons in H. destruct H as [He Hes].
  rewrite replayed_cons, He, IH by exact Hes. reflexivity.
Qed.

(** X4.  Replaying a stream that holds no creation event rebuilds the state
    that applying the same events one by one produced; only the ledger
    differs, which the replay leaves alone. *)
Theorem replay_rebuilds_live_state :
  forall es C w w0,
    Heap.valid_array (heap w) (_domainEvents (this w)) ->
    Forall (fun e => DomainEvent.instanceof (Heap.read_event (heap w) e) C = false)
      es ->
    Heap.events (heap w0) = Heap.events (heap w) ->
    (version (this w0), state (this w0)) = (version (this w), state (this w)) ->
    (version (this (loadsFromHistory es C w0)),
     state (this (loadsFromHistory es C w0)))
    = (version (this (live es w)), state (this (live es w))) /\
    ledger (loadsFromHistory es C w0) = ledger w0 /\
    ledger (live es w) = ledger w ++ es.
Proof.
  intros es C w w0 Hv Hes Hev Hvis.
  destruct (live_spec es w Hv) as (H1 & _ & _ & H4).
  destruct (loadsFromHistory_frame es C w0) as (Hh & _ & _ & Hd & H5).
  split; [|split; [|exact H1]].
  - rewrite H5, H4, Hvis. f_equal.
    assert (Hread : Heap.read_event (heap w0) = Heap.read_event (heap w)).
    { unfold Heap.read_event. rewrite Hev. reflexivity. }
    rewrite replayed_all.
    + rewrite Hread. reflexivity.
    + rewrite Hread. exact Hes.
  - unfold ledger. rewrite Hh, Hd. reflexivity.
Qed.

(** *** Replay in pieces *)

(** X5.  A history can be replayed in pieces, and a stream that holds only
    creation events changes nothing. *)
Theorem loadsFromHistory_app :
  forall h1 h2 C w,
    loadsFromHistory (h1 ++ h2) C w
    = loadsFromHistory h2 C (loadsFromHistory h1 C w) /\
    (Forall (fun e => DomainEvent.instanceof (Heap.read_event (heap w) e) C = true)
       h1 ->
     loadsFromHistory h1 C w = w).
Proof.
  intros h1 h2 C. induction h1 as [|e h1 IH]; intros w.
  - split; reflexivity.
  - rewrite <- app_comm_cons, !loadsFromHistory_cons.
    destruct (DomainEvent.instanceof (Heap.read_event (heap w) e) C) eqn:E.
    + split; [apply IH|]. intros H. apply Forall_cons in H. apply IH, H.
    + split; [apply IH|]. intros H. apply Forall_cons in H.
      destruct H as [H _]. rewrite E in H. discriminate.
Qed.

(** *** Dropping the ledger *)

(** X6.  [clearEvents()] forgets the events of the ledger and nothing else: the
    state that applying them produced stays, no event is committed, and an
    array pulled earlier keeps what it held. *)
Theorem clearEvents_keeps_state :
  forall es w,
    Heap.valid_array (heap w) (_domainEvents (this w)) ->
    ledger (clearEvents (live es w)) = [] /\
    (version (this (clearEvents (live es w))),
     state (this (clearEvents (live es w))))
    = foldl apply (version (this w), state (this w))
        (Heap.read_event (heap w) <$> es) /\
    Heap.events (heap (clearEvents (live es w))) = Heap.events (heap w) /\
    (forall b, Heap.valid_array (heap (live es w)) b ->
               Heap.read_array (heap (clearEvents (live es w))) b
               = Heap.read_array (heap (live es w)) b) /\
    Heap.read_array (heap (pullDomainEvents (clearEvents (live es w))).2)
      (pullDomainEvents (clearEvents (live es w))).1 = [].
Proof.
  intros es w Hv. destruct (live_spec es w Hv) as (_ & _ & H3 & H4).
  destruct (clearEvents_ledger (live es w)) as (Hl & Hev).
  split; [exact Hl|]. split; [exact H4|]. split; [rewrite Hev; exact H3|].
  split.
  - intros b Hb. unfold clearEvents. cbn [heap].
    apply HeapFacts.read_array_alloc_old. exact Hb.
  - rewrite (proj1 (proj2 (proj2 (pull_spec (clearEvents (live es w)))))).
    exact Hl.
Qed.

(** *** Committing and pulling *)

(** X7.  Once the events are pulled the ledger is empty, so a [commitEvents()]
    that comes after the pull changes nothing: the pulled events keep the
    commit status they had. *)
Theorem commit_after_pull_is_void :
  forall w,
    commitEvents (pullDomainEvents w).2 = (pullDomainEvents w).2 /\
    forall e,
      Heap.isCommitted (heap (commitEvents (pullDomainEvents w).2)) e
      = Heap.isCommitted (heap w) e.
Proof.
  intros w.
  destruct (pull_spec w) as (_ & _ & _ & Hl & _ & Hev).
  assert (H : commitEvents (pullDomainEvents w).2 = (pullDomainEvents w).2).
  { unfold commitEvents. rewrite Hl. cbn [foldl]. apply world_eta. }
  split; [exact H|]. intros e. rewrite H.
  unfold Heap.isCommitted, Heap.read_event. rewrite Hev. reflexivity.
Qed.

(** *** Publishing *)

Lemma committed_calls_foldl_commit es' h es :
  committed_calls (foldl (fun h e => Heap.commit e h) h es') es
  = committed_calls h es.
Proof.
  revert h. induction es' as [|e es' IH]; intros h; [reflexivity|].
  cbn [foldl]. rewrite IH. apply committed_calls_commit.
Qed.

(** X8.  The logger gets one line for each event of the ledger, in the order
    of the ledger, made of the correlation id, the name of the event's
    class, the name of the aggregate's class and its id; and this whether
    the publication is fulfilled or not. *)
Theorem publishEvents_log :
  forall logger bus w,
    (publishEvents logger bus w).1.1.2
    = logger ++ ((fun e => published_message S correlationId Id_toString (this w)
                             (Heap.read_event (heap w) e)) <$> ledger w).
Proof.
  intros logger bus w. rewrite publishEvents_unfold. cbv zeta.
  destruct (Promise_all _); cbn [fst snd]; apply publish_map_logger.
Qed.

(** X9.  Publishing an empty ledger hands the bus nothing, logs nothing and is
    fulfilled; and that is what a second publication right after a
    fulfilled one does. *)
Theorem publishEvents_nothing_left :
  forall logger bus w,
    (ledger w = [] ->
     publishEvents logger bus w = (clearEvents w, logger, bus, EventBus.Fulfilled)) /\
    ((publishEvents logger bus w).2 = EventBus.Fulfilled ->
     let first := publishEvents logger bus w in
     let second := publishEvents first.1.1.2 first.1.2 first.1.1.1 in
     second.2 = EventBus.Fulfilled /\
     second.1.2 = first.1.2 /\
     second.1.1.2 = first.1.1.2 /\
     Heap.events (heap second.1.1.1) = Heap.events (heap first.1.1.1)).
Proof.
  intros logger bus w.
  assert (Hempty : forall logger bus w,
            ledger w = [] ->
            publishEvents logger bus w
            = (clearEvents w, logger, bus, EventBus.Fulfilled)).
  { clear. intros logger bus w Hl. rewrite publishEvents_unfold, Hl.
    cbv zeta. cbn [AggregateRoot.publish_map fst snd]. unfold Promise_all.
    cbn [forallb]. rewrite world_eta. reflexivity. }
  split; [apply Hempty|].
  intros Hf first second.
  assert (Hl : ledger first.1.1.1 = []).
  { unfold first. rewrite publishEvents_unfold in Hf |- *.
    cbv zeta in Hf |- *.
    destruct (Promise_all _); cbn [fst snd] in Hf |- *; [|discriminate].
    apply clearEvents_ledger. }
  unfold second. rewrite (Hempty _ _ _ Hl). cbn [fst snd].
  repeat split.
Qed.

(** X10.  When a publication is rejected the ledger keeps its events, so
    publishing again hands the bus every one of them a second time, those
    whose first dispatch was fulfilled included. *)
Theorem publishEvents_retry_dispatches_all_again :
  forall logger bus w,
    wf w ->
    (publishEvents logger bus w).2 = EventBus.Rejected ->
    let first := publishEvents logger bus w in
    let second := publishEvents first.1.1.2 first.1.2 first.1.1.1 in
    EventBus.received second.1.2
    = EventBus.received bus
      ++ committed_calls (heap w) (ledger w)
      ++ committed_calls (heap w) (ledger w).
Proof.
  intros logger bus w [Hva Hve] Hr first second.
  unfold second, first. clear first second.
  rewrite (publishEvents_unfold logger bus w) in Hr |- *.
  cbv zeta in Hr |- *.
  destruct (publish_map_spec (this w) (ledger w) (heap w) logger bus Hve)
    as (H1 & H2 & _).
  pose proof (publish_map_heap (this w) (ledger w) (heap w) logger bus) as Hh.
  destruct (publish_map (this w) (ledger w) (heap w, logger, bus))
    as [[[h1 logger1] bus1] promises1] eqn:E1.
  cbn [fst snd] in Hr, H1, H2, Hh |- *.
  destruct (Promise_all promises1); [discriminate|]. cbn [fst snd].
  assert (Hl : ledger (MkWorld h1 (this w)) = ledger w).
  { unfold ledger, Heap.read_array. cbn [heap this]. rewrite Hh.
    rewrite (proj1 (HeapFacts.foldl_commit (ledger w) (heap w))). reflexivity. }
  assert (Hve1 : Forall (Heap.valid_event h1) (ledger w)).
  { eapply Forall_impl; [exact Hve|]. intros x Hx.
    apply (valid_event_length (heap w) h1 x); [|exact Hx].
    rewrite Hh. apply foldl_commit_length. }
  rewrite publishEvents_unfold. cbv zeta. cbn [heap this]. rewrite Hl.
  destruct (publish_map_spec (this w) (ledger w) h1 logger1 bus1 Hve1)
    as (_ & H2' & _).
  assert (Hrec : EventBus.received
                   (publish_map (this w) (ledger w) (h1, logger1, bus1)).1.2
                 = EventBus.received bus
                   ++ committed_calls (heap w) (ledger w)
                   ++ committed_calls (heap w) (ledger w)).
  { rewrite H2', H2, Hh, committed_calls_foldl_commit, <- app_assoc.
    reflexivity. }
  destruct (Promise_all _); cbn [fst snd]; exact Hrec.
Qed.

(** *** Publishing through the router *)

(** X11.  An event of the ledger goes to the bus of committed events once
    [commitEvents()] or [publishEvents()] has run, and only there; an
    uncommitted event that is applied and pulled, with no commit in
    between, goes to the bus of uncommitted events. *)
Theorem route_after_commit :
  forall router logger bus w e,
    wf w ->
    e ∈ ledger w ->
    let call := EventBus.MkCall e (DomainEvent.commit (Heap.read_event (heap w) e)) in
    let committed :=
      EventBus.MkBus
        (EventBus.behaviour (EventBusRouter.committedEventBus router))
        (EventBus.received (EventBusRouter.committedEventBus router) ++ [call]) in
    (EventBusRouter.route router (heap (commitEvents w)) e).1
    = EventBusRouter.MkRouter (EventBusRouter.uncommittedEventBus router) committed /\
    (EventBusRouter.route router (heap (publishEvents logger bus w).1.1.1) e).1
    = EventBusRouter.MkRouter (EventBusRouter.uncommittedEventBus router) committed /\
    (forall e',
        Heap.isCommitted (heap w) e' = false ->
        EventBusRouter.committedEventBus
          (EventBusRouter.route router
             (heap (pullDomainEvents (applyChange e' w)).2) e').1
        = EventBusRouter.committedEventBus router).
Proof.
  intros router logger bus w e [Hva Hve] Hin call committed.
  assert (Hv : Heap.valid_event (heap w) e).
  { eapply Forall_forall in Hve; eauto. }
  destruct (commitEvents_committed w e Hin Hv) as (Hc & Hr).
  assert (Hroute : forall h,
            Heap.events h = Heap.events (heap (commitEvents w)) ->
            (EventBusRouter.route router h e).1
            = EventBusRouter.MkRouter
                (EventBusRouter.uncommittedEventBus router) committed).
  { intros h Hh. unfold EventBusRouter.route, EventBus.dispatch,
      Heap.isCommitted, Heap.read_event. rewrite Hh.
    unfold Heap.isCommitted, Heap.read_event in Hc, Hr. rewrite Hc, Hr.
    reflexivity. }
  split; [apply Hroute; reflexivity|].
  split; [apply Hroute; apply publishEvents_events|].
  intros e' He'.
  destruct (pull_spec (applyChange e' w)) as (_ & _ & _ & _ & _ & Hev).
  unfold EventBusRouter.route, Heap.isCommitted, Heap.read_event.
  rewrite Hev, (proj2 (applyChange_visible e' w)).
  unfold Heap.isCommitted, Heap.read_event in He'. rewrite He'. reflexivity.
Qed.

End Facts.

Lemma an_account_wf : wf Fixtures.an_account /\ wf Fixtures.a_deposit.
Proof.
  split; (split; [vm_compute; lia|]); vm_compute.
  - constructor.
  - repeat constructor.
Qed.

Lemma applyChange_then_pull_witness :
  Heap.read_array
    (heap (pullDomainEvents
             (AggregateRoot.applyChange nat Fixtures.count_applied 1
                Fixtures.an_account)).2)
    (pullDomainEvents
       (AggregateRoot.applyChange nat Fixtures.count_applied 1
          Fixtures.an_account)).1
  = [1].
Proof.
  exact (proj1 (proj2
    (proj1 (applyChange_then_pull nat Fixtures.Guard_isEmpty Fixtures.no_rule
              Fixtures.count_applied 1)
       Fixtures.an_account (proj1 (proj1 an_account_wf))))).
Defined.

Lemma loadsFromHistory_spec_witness :
  (state (this (AggregateRoot.loadsFromHistory nat Fixtures.count_applied
                  [0; 1; 2] "AccountCreated" Fixtures.an_account)),
   ledger (AggregateRoot.loadsFromHistory nat Fixtures.count_applied
             [0; 1; 2] "AccountCreated" Fixtures.an_account))
  = (2, []).
Proof.
  destruct (proj1 (loadsFromHistory_spec nat Fixtures.Guard_isEmpty
                     Fixtures.no_rule Fixtures.count_applied
                     [0; 1; 2] "AccountCreated") Fixtures.an_account)
    as (_ & Hl & _ & Hs).
  rewrite Hl. apply (f_equal snd) in Hs. cbn [snd] in Hs. rewrite Hs.
  reflexivity.
Defined.

(** A fresh account replays its history and has nothing to publish. *)
Example replay_on_a_new_account :
  AggregateRoot.new nat Fixtures.Guard_isEmpty Fixtures.no_rule 0
    (Entity.MkCreateEntityProps (Fixtures.an_id 1 "u-1")
       (JObject [("name", JString "Ann")]) (Some 0%Z) (Some 0%Z))
    "Account" 0 (Heap.MkHeap [] (Heap.events (heap Fixtures.an_account)))
  = Normal Fixtures.an_account.
Proof. reflexivity. Qed.

Lemma commitEvents_spec_witness :
  Heap.isCommitted (heap (commitEvents Fixtures.a_deposit)) 1 = true /\
  Heap.isCommitted (heap (commitEvents Fixtures.a_deposit)) 2 = false /\
  ledger (commitEvents Fixtures.a_deposit) = [1].
Proof.
  destruct (commitEvents_spec nat Fixtures.a_deposit)
    as (_ & _ & Hl & _ & Hin & Hout & _).
  split; [|split].
  - apply Hin; [apply list_elem_of_here|vm_compute; lia].
  - unfold Heap.isCommitted. rewrite Hout; [reflexivity|].
    vm_compute. intros H.
    apply list_elem_of_In in H. destruct H as [H|[]]. discriminate.
  - rewrite Hl. reflexivity.
Defined.

Lemma publishEvents_spec_witness :
  Fixtures.publish_then_pull Fixtures.accepting_bus Fixtures.a_deposit
  = (EventBus.Fulfilled, []).
Proof.
  pose proof (publishEvents_spec nat "c-1" (fun _ => "account-1") []
                Fixtures.accepting_bus Fixtures.a_deposit
                (proj2 an_account_wf)) as H.
  cbv zeta in H. destruct H as (_ & _ & _ & _ & _ & Hs & _ & Hf & _).
  specialize (Hf eq_refl). destruct Hf as [_ Hf].
  unfold Fixtures.publish_then_pull.
  destruct (AggregateRoot.publishEvents nat "c-1" (fun _ => "account-1") []
              Fixtures.accepting_bus Fixtures.a_deposit)
    as [[[w' logger'] bus'] settled] eqn:E.
  cbn [fst snd] in Hs, Hf.
  destruct (pullDomainEvents w') as [pulled w''] eqn:E'.
  cbn [fst snd] in Hf. rewrite Hf, Hs. reflexivity.
Defined.

(** C3 as stated fails on a bus that rejects: the publication is rejected
    and the following pull returns the event, not an empty array. *)
Lemma publish_rejected_then_pull :
  Fixtures.publish_then_pull Fixtures.rejecting_bus Fixtures.a_deposit
  = (EventBus.Rejected, [1]) /\
  (Fixtures.publish_then_pull Fixtures.rejecting_bus Fixtures.a_deposit).2 <> [].
Proof. split; [reflexivity|discriminate]. Qed.

Lemma version_only_moves_in_apply_witness :
  version (this (AggregateRoot.run_all nat Fixtures.count_applied "c-1"
                   (fun _ => "account-1") Fixtures.a_session
                   Fixtures.an_account))
  = 0%Z.
Proof.
  exact (proj1 (proj2 (proj2 (proj2 (proj2 (proj2 (proj2 (proj2
    (version_only_moves_in_apply nat Fixtures.Guard_isEmpty Fixtures.no_rule
       Fixtures.count_applied "c-1" (fun _ => "account-1"))))))))
    (fun vs ev => eq_refl))
    Fixtures.a_session Fixtures.an_account).
Defined.

(** C10 as stated fails on a subclass whose [apply] counts the events in
    [version], as an event-sourced aggregate does: the account is
    constructed with version 0, and two calls of [applyChange] leave it
    at 2. *)
Lemma version_moved_by_apply :
  AggregateRoot.new nat Fixtures.Guard_isEmpty Fixtures.no_rule 0
    (Entity.MkCreateEntityProps (Fixtures.an_id 1 "u-1")
       (JObject [("name", JString "Ann")]) (Some 0%Z) (Some 0%Z))
    "Account" 0 (Heap.MkHeap [] (Heap.events (heap Fixtures.an_account)))
  = Normal Fixtures.an_account /\
  version (this Fixtures.an_account) = 0%Z /\
  version (this (AggregateRoot.run_all nat Fixtures.bump_version "c-1"
                   (fun _ => "account-1")
                   [AggregateRoot.ApplyChange 1; AggregateRoot.ApplyChange 2]
                   Fixtures.an_account))
  = 2%Z /\
  version (this (AggregateRoot.run_all nat Fixtures.bump_version "c-1"
                   (fun _ => "account-1")
                   [AggregateRoot.ApplyChange 1; AggregateRoot.ApplyChange 2]
                   Fixtures.an_account))
  <> version (this Fixtures.an_account).
Proof. repeat split. discriminate. Qed.

(** The counter moves only if the subclass moves it in [apply]. *)
Example version_follows_the_hook :
  version (this (AggregateRoot.applyChange nat Fixtures.bump_version 1
                   Fixtures.an_account)) = 1%Z.
Proof. reflexivity. Qed.

Lemma events_only_ever_commit_witness :
  exists ev',
    Heap.events
      (heap (AggregateRoot.run_all nat Fixtures.count_applied "c-1"
               (fun _ => "account-1") Fixtures.a_session Fixtures.an_account))
    !! 2 = Some ev' /\
    Invariant.same_or_committed (Fixtures.deposited 7) ev' /\
    (DomainEvent.isCommitted (Fixtures.deposited 7) = true ->
     ev' = Fixtures.deposited 7).
Proof.
  exact (proj2 (events_only_ever_commit nat Fixtures.count_applied "c-1"
                  (fun _ => "account-1") Fixtures.a_session Fixtures.an_account)
           2 (Fixtures.deposited 7) eq_refl).
Defined.

Lemma a_session_valid :
  Forall (Invariant.valid_operation (heap Fixtures.an_account)) Fixtures.a_session.
Proof. repeat constructor. Qed.

Lemma wf_preserved_witness :
  wf (AggregateRoot.run_all nat Fixtures.count_applied "c-1"
        (fun _ => "account-1") Fixtures.a_session Fixtures.an_account).
Proof.
  exact (wf_preserved nat Fixtures.count_applied "c-1" (fun _ => "account-1")
           Fixtures.a_session Fixtures.an_account (proj1 an_account_wf)
           a_session_valid).
Defined.

Lemma applyChange_sequence_witness :
  ledger (AggregateRoot.run_all nat Fixtures.count_applied "c-1"
            (fun _ => "account-1")
            (AggregateRoot.ApplyChange <$> [1; 1; 2]) Fixtures.an_account)
  = [1; 1; 2].
Proof.
  exact (proj1 (applyChange_sequence nat Fixtures.count_applied "c-1"
                  (fun _ => "account-1") [1; 1; 2] Fixtures.an_account
                  (proj1 (proj1 an_account_wf)))).
Defined.

Lemma no_creation_event :
  Forall (fun e => DomainEvent.instanceof
                     (Heap.read_event (heap Fixtures.an_account) e)
                     "AccountCreated" = false) [1; 2].
Proof. repeat constructor. Qed.

Lemma replay_rebuilds_live_state_witness :
  (version (this (AggregateRoot.loadsFromHistory nat Fixtures.count_applied
                    [1; 2] "AccountCreated" Fixtures.an_account)),
   state (this (AggregateRoot.loadsFromHistory nat Fixtures.count_applied
                  [1; 2] "AccountCreated" Fixtures.an_account)))
  = (version (this (AggregateRoot.run_all nat Fixtures.count_applied "c-1"
                      (fun _ => "account-1")
                      (AggregateRoot.ApplyChange <$> [1; 2]) Fixtures.an_account)),
     state (this (AggregateRoot.run_all nat Fixtures.count_applied "c-1"
                    (fun _ => "account-1")
                    (AggregateRoot.ApplyChange <$> [1; 2]) Fixtures.an_account))).
Proof.
  exact (proj1 (replay_rebuilds_live_state nat Fixtures.count_applied "c-1"
                  (fun _ => "account-1") [1; 2] "AccountCreated"
                  Fixtures.an_account Fixtures.an_account
                  (proj1 (proj1 an_account_wf)) no_creation_event
                  eq_refl eq_refl)).
Defined.

Lemma loadsFromHistory_app_witness :
  AggregateRoot.loadsFromHistory nat Fixtures.count_applied [0; 0]
    "AccountCreated" Fixtures.an_account
  = Fixtures.an_account.
Proof.
  apply (proj2 (loadsFromHistory_app nat Fixtures.count_applied [0; 0] []
                  "AccountCreated" Fixtures.an_account)).
  repeat constructor.
Defined.

Lemma clearEvents_keeps_state_witness :
  (version (this (clearEvents
                    (AggregateRoot.run_all nat Fixtures.count_applied "c-1"
                       (fun _ => "account-1")
                       (AggregateRoot.ApplyChange <$> [1; 2])
                       Fixtures.an_account))),
   state (this (clearEvents
                  (AggregateRoot.run_all nat Fixtures.count_applied "c-1"
                     (fun _ => "account-1")
                     (AggregateRoot.ApplyChange <$> [1; 2])
                     Fixtures.an_account))))
  = (0%Z, 2).
Proof.
  exact (proj1 (proj2 (clearEvents_keeps_state nat Fixtures.count_applied "c-1"
                         (fun _ => "account-1") [1; 2] Fixtures.an_account
                         (proj1 (proj1 an_account_wf))))).
Defined.

Lemma publishEvents_nothing_left_witness :
  AggregateRoot.publishEvents nat "c-1" (fun _ => "account-1") []
    Fixtures.rejecting_bus Fixtures.an_account
  = (clearEvents Fixtures.an_account, [], Fixtures.rejecting_bus,
     EventBus.Fulfilled).
Proof.
  exact (proj1 (publishEvents_nothing_left nat "c-1" (fun _ => "account-1") []
                  Fixtures.rejecting_bus Fixtures.an_account) eq_refl).
Defined.

Lemma publishEvents_retry_dispatches_all_again_witness :
  EventBus.received
    (AggregateRoot.publishEvents nat "c-1" (fun _ => "account-1")
       Fixtures.rejected_publication.1.1.2 Fixtures.rejected_publication.1.2
       Fixtures.rejected_publication.1.1.1).1.2
  = [EventBus.MkCall 1 (DomainEvent.commit (Fixtures.deposited 5));
     EventBus.MkCall 1 (DomainEvent.commit (Fixtures.deposited 5))].
Proof.
  exact (publishEvents_retry_dispatches_all_again nat "c-1"
           (fun _ => "account-1") [] Fixtures.rejecting_bus Fixtures.a_deposit
           (proj2 an_account_wf) eq_refl).
Defined.

Lemma route_after_commit_witness :
  (EventBusRouter.route Fixtures.a_router
     (heap (commitEvents Fixtures.a_deposit)) 1).1
  = EventBusRouter.MkRouter Fixtures.accepting_bus
      (EventBus.MkBus (EventBus.behaviour Fixtures.rejecting_bus)
         [EventBus.MkCall 1 (DomainEvent.commit (Fixtures.deposited 5))]).
Proof.
  exact (proj1 (route_after_commit nat Fixtures.count_applied "c-1"
                  (fun _ => "account-1") Fixtures.a_router []
                  Fixtures.accepting_bus Fixtures.a_deposit 1
                  (proj2 an_account_wf) (list_elem_of_here 1 []))).
Defined.

End AggregateRootSpec.

(** ** Object literals *)

Module ObjectLiteralFacts.

Import Entity.

Lemma lookup_field_app k l1 l2 :
  lookup_field k (l1 ++ l2) =
  match lookup_field k l1 with
  | Some v => Some v
  | None => lookup_field k l2
  end.
Proof.
  induction l1 as [|[k' v'] l1 IH]; simpl; [reflexivity|].
  destruct (decide (k = k')); [reflexivity|exact IH].
Qed.

Lemma lookup_field_None k fields :
  lookup_field k fields = None <-> k ∉ fields.*1.
Proof.
  induction fields as [|[k' v'] rest IH]; simpl.
  - split; [intros _ H; inversion H|reflexivity].
  - destruct (decide (k = k')) as [->|Hne].
    + split; [discriminate|]. intros H. exfalso. apply H, list_elem_of_here.
    + rewrite IH. rewrite not_elem_of_cons. tauto.
Qed.

(** In a list that holds each key once, a key is bound to the value it
    stands with. *)
Lemma lookup_field_Some k v fields :
  NoDup (fields.*1) -> lookup_field k fields = Some v <-> (k, v) ∈ fields.
Proof.
  induction fields as [|[k' v'] rest IH]; simpl; intros Hnd.
  - split; [discriminate|]. intros H. inversion H.
  - apply NoDup_cons in Hnd as [Hk' Hnd]. rewrite elem_of_cons.
    destruct (decide (k = k')) as [->|Hne].
    + split.
      * intros [= ->]. left. reflexivity.
      * intros [[= ->]|Hin]; [reflexivity|].
        exfalso. apply Hk'. apply list_elem_of_fmap. exists (k', v). auto.
    + rewrite (IH Hnd). split; [auto|]. intros [[= -> ->]|Hin]; [congruence|exact Hin].
Qed.

Lemma lookup_field_Permutation k fields fields' :
  NoDup (fields.*1) -> fields ≡ₚ fields' ->
  lookup_field k fields = lookup_field k fields'.
Proof.
  intros Hnd Hp.
  assert (Hnd' : NoDup (fields'.*1)) by (rewrite <- Hp; exact Hnd).
  destruct (lookup_field k fields) as [v|] eqn:E.
  - symmetry. apply lookup_field_Some; [exact Hnd'|]. rewrite <- Hp.
    apply lookup_field_Some; assumption.
  - symmetry. apply lookup_field_None. rewrite <- Hp.
    apply lookup_field_None, E.
Qed.

(** *** The order of the own properties *)

Lemma array_index_Some k n :
  array_index k = Some n -> k = pretty n /\ (n < 4294967295)%N.
Proof.
  unfold array_index. destruct (NilEmpty.uint_of_string k) as [u|]; simpl; [|discriminate].
  destruct (decide _) as [[Hk Hn]|]; [|discriminate].
  intros [= <-]. split; [symmetry; exact Hk|exact Hn].
Qed.

Lemma array_index_inj k k' n :
  array_index k = Some n -> array_index k' = Some n -> k = k'.
Proof.
  intros H H'. apply array_index_Some in H as [-> _].
  apply array_index_Some in H' as [-> _]. reflexivity.
Qed.

Lemma own_property_order_Permutation fields :
  own_property_order fields ≡ₚ fields.
Proof.
  unfold own_property_order. rewrite merge_sort_Permutation.
  apply filter_app_complement.
Qed.

Lemma own_property_order_NoDup fields :
  NoDup (fields.*1) -> NoDup ((own_property_order fields).*1).
Proof. rewrite own_property_order_Permutation. auto. Qed.

Lemma own_property_order_lookup k fields :
  NoDup (fields.*1) ->
  lookup_field k (own_property_order fields) = lookup_field k fields.
Proof.
  intros Hnd. symmetry. apply lookup_field_Permutation; [exact Hnd|].
  symmetry. apply own_property_order_Permutation.
Qed.

#[local] Instance index_le_total : Total index_le.
Proof. intros a b. unfold index_le. lia. Qed.

#[local] Instance index_le_trans : Transitive index_le.
Proof. intros a b c. unfold index_le. lia. Qed.

(** The numbers of sorted array indices that differ ascend strictly. *)
Lemma sorted_indices_ascend (l : list (string * JsValue)) :
  StronglySorted index_le l ->
  Forall (fun kv => is_Some (array_index kv.1)) l ->
  NoDup (l.*1) ->
  StronglySorted N.lt (omap array_index (l.*1)).
Proof.
  induction 1 as [|[k v] l Hs IH Hall]; intros Hidx Hnd; [constructor|].
  apply Forall_cons in Hidx as [[n Hn] Hidx].
  rewrite fmap_cons in Hnd |- *. apply NoDup_cons in Hnd as [Hk Hnd].
  cbn [fst omap list_omap] in *. fold (omap array_index (l.*1)).
  rewrite Hn. constructor; [apply IH; assumption|].
  apply Forall_forall. intros m Hm.
  apply list_elem_of_omap in Hm as (k' & Hk' & Hm).
  apply list_elem_of_fmap in Hk' as ([k'' v'] & -> & Hin). cbn [fst] in *.
  rewrite Forall_forall in Hall. specialize (Hall _ Hin).
  unfold index_le in Hall. cbn [fst] in Hall. rewrite Hn, Hm in Hall. simpl in Hall.
  destruct (decide (n = m)) as [->|Hne]; [|lia].
  exfalso. apply Hk. rewrite (array_index_inj _ _ _ Hn Hm).
  apply list_elem_of_fmap. exists (k'', v'). auto.
Qed.

Lemma filter_keys (P : string -> Prop)
    (H1 : forall kv : string * JsValue, Decision (P kv.1))
    (H2 : forall k, Decision (P k)) (fields : list (string * JsValue)) :
  (@filter _ _ _ (fun kv => P kv.1) H1 fields).*1 = @filter _ _ _ P H2 (fields.*1).
Proof.
  induction fields as [|[k v] rest IH]; [reflexivity|].
  rewrite fmap_cons, !filter_cons. cbn [fst].
  unfold decide. destruct (H1 (k, v)) as [Hp|Hp], (H2 k) as [Hp'|Hp'];
    cbn [fst] in Hp; try contradiction;
    [rewrite fmap_cons|]; rewrite IH; reflexivity.
Qed.

(** The keys of an object stand in the order of its own properties. *)
Lemma own_property_order_keys fields :
  NoDup (fields.*1) ->
  exists indices,
    Reading.key_order ((own_property_order fields).*1) indices
      (filter (fun k => ~ is_Some (array_index k)) (fields.*1)) /\
    indices ⊆ fields.*1.
Proof.
  intros Hnd. unfold own_property_order.
  set (ixs := filter (fun kv => is_Some (array_index kv.1)) fields).
  exists ((merge_sort index_le ixs).*1).
  assert (Hp : merge_sort index_le ixs ≡ₚ ixs) by apply merge_sort_Permutation.
  assert (Hall : Forall (fun kv => is_Some (array_index kv.1)) (merge_sort index_le ixs)).
  { rewrite Hp. apply Forall_forall. intros kv Hin.
    apply list_elem_of_filter in Hin as [Hin _]. exact Hin. }
  split; [split; [|split; [|split]]|].
  - rewrite fmap_app. f_equal.
    apply (filter_keys (fun k => ~ is_Some (array_index k))).
  - apply Forall_fmap. exact Hall.
  - apply sorted_indices_ascend.
    + apply StronglySorted_merge_sort; apply _.
    + exact Hall.
    + rewrite Hp. unfold ixs.
      rewrite (filter_keys (fun k => is_Some (array_index k)) _ _).
      apply NoDup_filter, Hnd.
  - apply Forall_forall. intros k Hin. apply list_elem_of_filter in Hin as [Hin _].
    destruct (array_index k); [exfalso; apply Hin; eexists; reflexivity|reflexivity].
  - intros k Hin. rewrite Hp in Hin. unfold ixs in Hin.
    rewrite (filter_keys (fun k => is_Some (array_index k)) _ _) in Hin.
    apply list_elem_of_filter in Hin as [_ Hin]. exact Hin.
Qed.

(** *** Setting keys *)

Lemma lookup_object_set k' k v fields :
  lookup_field k' (object_set k v fields) =
  if decide (k' = k) then Some v else lookup_field k' fields.
Proof.
  induction fields as [|[k0 v0] rest IH]; simpl.
  - destruct (decide (k' = k)); reflexivity.
  - destruct (decide (k = k0)) as [->|Hne]; simpl.
    + destruct (decide (k' = k0)); reflexivity.
    + destruct (decide (k' = k0)) as [->|Hne'].
      * destruct (decide (k0 = k)); [congruence|reflexivity].
      * exact IH.
Qed.

Lemma keys_object_set k v fields :
  (object_set k v fields).*1 =
  if bool_decide (k ∈ fields.*1) then fields.*1 else fields.*1 ++ [k].
Proof.
  induction fields as [|[k0 v0] rest IH]; [reflexivity|].
  cbn [object_set]. rewrite fmap_cons. cbn [fst].
  destruct (decide (k = k0)) as [->|Hne].
  - rewrite bool_decide_eq_true_2 by apply list_elem_of_here. reflexivity.
  - rewrite fmap_cons. cbn [fst]. rewrite IH.
    assert (Hiff : bool_decide (k ∈ k0 :: rest.*1) = bool_decide (k ∈ rest.*1)).
    { apply bool_decide_ext. rewrite elem_of_cons. split; [|auto].
      intros [->|H]; [contradiction|exact H]. }
    rewrite Hiff. destruct (bool_decide (k ∈ rest.*1)); reflexivity.
Qed.

Lemma NoDup_object_set k v fields :
  NoDup (fields.*1) -> NoDup ((object_set k v fields).*1).
Proof.
  intros H. rewrite keys_object_set.
  destruct (bool_decide (k ∈ fields.*1)) eqn:E; [exact H|].
  apply bool_decide_eq_false in E.
  apply NoDup_app. split; [exact H|]. split.
  - intros x Hx Hx'. apply list_elem_of_singleton in Hx'. subst. contradiction.
  - apply NoDup_singleton.
Qed.

(** What the fields hold when [entries] are set on [acc], in order. *)
Lemma build_spec entries :
  forall acc,
    let fs := foldl (fun acc kv => object_set kv.1 kv.2 acc) acc entries in
    (NoDup (acc.*1) -> NoDup (fs.*1)) /\
    (exists more, fs.*1 = acc.*1 ++ more) /\
    forall k,
      lookup_field k fs =
      match Reading.last_binding k entries with
      | Some v => Some v
      | None => lookup_field k acc
      end.
Proof.
  unfold Reading.last_binding.
  induction entries as [|[k0 v0] entries IH]; intros acc; cbn [foldl].
  - split; [auto|]. split; [exists []; symmetry; apply app_nil_r|].
    intros k. reflexivity.
  - destruct (IH (object_set k0 v0 acc)) as (Hnd & (more & Hpre) & Hlook).
    cbn [fst snd] in *.
    split; [intros H; apply Hnd, NoDup_object_set, H|].
    split.
    + rewrite Hpre, keys_object_set.
      destruct (bool_decide (k0 ∈ acc.*1)).
      * exists more. reflexivity.
      * exists (k0 :: more). rewrite <- app_assoc. reflexivity.
    + intros k. rewrite Hlook, reverse_cons, lookup_field_app.
      destruct (lookup_field k (reverse entries)); [reflexivity|].
      rewrite lookup_object_set. simpl.
      destruct (decide (k = k0)); reflexivity.
Qed.

Lemma last_binding_Some k v entries :
  Reading.last_binding k entries = Some v -> k ∈ entries.*1.
Proof.
  unfold Reading.last_binding. intros H.
  destruct (decide (k ∈ entries.*1)) as [Hin|Hnin]; [exact Hin|].
  assert (Hn : k ∉ (reverse entries).*1).
  { rewrite fmap_reverse. rewrite elem_of_reverse. exact Hnin. }
  apply lookup_field_None in Hn. congruence.
Qed.

(** An object literal holds each key once and, under each key, the value of
    its last binding.  One that begins with three keys that differ and are
    no array indices lists the array indices of the other entries,
    ascending, then these three keys, then the other keys. *)
Lemma object_literal_shape k1 v1 k2 v2 k3 v3 rest :
  k1 <> k2 -> k1 <> k3 -> k2 <> k3 ->
  array_index k1 = None -> array_index k2 = None -> array_index k3 = None ->
  exists fs indices names,
    object_literal ([(k1, v1); (k2, v2); (k3, v3)] ++ rest) = JObject fs /\
    NoDup (fs.*1) /\
    Reading.key_order (fs.*1) indices ([k1; k2; k3] ++ names) /\
    (Forall (fun kv => array_index kv.1 = None) rest ->
     take 3 (fs.*1) = [k1; k2; k3]) /\
    (forall k,
        lookup_field k fs =
        Reading.last_binding k ([(k1, v1); (k2, v2); (k3, v3)] ++ rest)).
Proof.
  intros H12 H13 H23 Hi1 Hi2 Hi3. unfold object_literal.
  set (entries := [(k1, v1); (k2, v2); (k3, v3)] ++ rest).
  destruct (build_spec entries []) as (Hnd & _ & Hlook). cbv zeta in *.
  assert (Hnd' := Hnd (NoDup_nil_2 (A:=string))).
  destruct (own_property_order_keys _ Hnd') as (indices & Hord & Hsub).
  assert (Hpre : exists more,
    (foldl (fun acc kv => object_set kv.1 kv.2 acc) [] entries).*1
    = [k1; k2; k3] ++ more).
  { unfold entries. cbn [app foldl fst snd object_set].
    destruct (decide (k2 = k1)); [congruence|]. cbn [object_set].
    destruct (decide (k3 = k1)); [congruence|].
    destruct (decide (k3 = k2)); [congruence|]. cbn [object_set].
    destruct (build_spec rest [(k1, v1); (k2, v2); (k3, v3)])
      as (_ & Hpre & _). exact Hpre. }
  destruct Hpre as (more & Hpre).
  assert (Hord' : Reading.key_order
            ((own_property_order
                (foldl (fun acc kv => object_set kv.1 kv.2 acc) [] entries)).*1)
            indices
            ([k1; k2; k3] ++ filter (fun k => ~ is_Some (array_index k)) more)).
  { rewrite Hpre in Hord. rewrite filter_app in Hord.
    assert (Hbase : filter (fun k => ~ is_Some (array_index k)) [k1; k2; k3]
                    = [k1; k2; k3]).
    { rewrite !filter_cons, filter_nil. rewrite Hi1, Hi2, Hi3.
      repeat (destruct (decide _) as [_|Hn];
              [|exfalso; apply Hn; intros [? ?]; discriminate]).
      reflexivity. }
    rewrite Hbase in Hord. exact Hord. }
  eexists. exists indices.
  exists (filter (fun k => ~ is_Some (array_index k)) more).
  split; [reflexivity|].
  split; [apply own_property_order_NoDup, Hnd'|].
  split; [exact Hord'|]. split.
  - intros Hplain. destruct Hord' as (Hkeys & Hidx & _ & _).
    destruct indices as [|k indices]; [rewrite Hkeys; reflexivity|]. exfalso.
    apply Forall_cons in Hidx as [[n Hn] _].
    assert (Hin : k ∈ (foldl (fun acc kv => object_set kv.1 kv.2 acc) [] entries).*1)
      by (apply Hsub; left).
    destruct (lookup_field k (foldl (fun acc kv => object_set kv.1 kv.2 acc) [] entries))
      as [v|] eqn:E; [|apply lookup_field_None in E; contradiction].
    rewrite Hlook in E.
    destruct (Reading.last_binding k entries) as [v'|] eqn:E'; [|discriminate].
    apply last_binding_Some in E'. unfold entries in E'.
    rewrite fmap_app in E'. apply elem_of_app in E' as [Hb|Hr].
    + cbn in Hb. rewrite !elem_of_cons in Hb.
      destruct Hb as [->|[->|[->|Hb]]]; [congruence..|inversion Hb].
    + apply list_elem_of_fmap in Hr as ([k' v''] & -> & Hr).
      rewrite Forall_forall in Hplain. specialize (Hplain _ Hr). cbn in *. congruence.
  - intros k. rewrite own_property_order_lookup by exact Hnd'. rewrite Hlook.
    destruct (Reading.last_binding k entries); reflexivity.
Qed.

End ObjectLiteralFacts.

(** ** Entities: construction, validity, copies *)

Module EntityLaws.

Lemma Object_keys_defined v :
  v <> JUndefined -> v <> JNull -> exists keys, Object_keys v = Normal keys.
Proof.
  intros Hu Hn. destruct v as [| | | | | | | |[l p es a]]; simpl;
    try contradiction; eexists; reflexivity.
Qed.

Section Facts.

Context {opaque : OpaqueFields}.

Variable Guard_isEmpty : JsValue -> bool.
Variable convertPropsToObject : JsValue -> JsValue.
Variable validate : Entity.t -> list ExceptionBase.

Abbreviation new := (Entity.new Guard_isEmpty validate).
Abbreviation rules := (Reading.recorded_by_rules Guard_isEmpty).

Lemma new_exact now c keys :
  Object_keys (Entity.create_props c) = Normal keys ->
  let e0 :=
    Entity.MkEntity (Entity.create_id c)
      (default now (Entity.create_createdAt c))
      (default now (Entity.create_updatedAt c))
      (Entity.create_props c) (rules (Entity.create_props c) keys) false in
  new now c = Normal (Entity.set_errors (Entity.errors e0 ++ validate e0) e0).
Proof.
  intros Hk e0. unfold Entity.new.
  rewrite (EntitySpec.validateProps_rules Guard_isEmpty _ _ _ Hk).
  cbn [mbind Completion_bind app]. rewrite EntitySpec.foldl_entity_addError.
  reflexivity.
Qed.

(** X12.  The constructor of an entity throws only when it is given no props at
    all ([undefined] or [null]), and then a [TypeError]; on every other
    input it returns the entity, with the id and the props it was given,
    the timestamps it was given or else the current time for both, and
    none of [equals], [getPropsCopy], [toObject] attached. *)
Theorem new_throws_only_without_props :
  forall now c,
    (Entity.create_props c = JUndefined \/ Entity.create_props c = JNull ->
     new now c = Abrupt TypeError) /\
    (Entity.create_props c <> JUndefined ->
     Entity.create_props c <> JNull ->
     exists e,
       new now c = Normal e /\
       Entity.id e = Entity.create_id c /\
       Entity.props e = Entity.create_props c /\
       Entity.createdAt e = default now (Entity.create_createdAt c) /\
       Entity.updatedAt e = default now (Entity.create_updatedAt c) /\
       Entity.armed e = false).
Proof.
  intros now c. split.
  - intros [H|H]; unfold Entity.new, Entity.validateProps; rewrite H;
      reflexivity.
  - intros Hu Hn. destruct (Object_keys_defined _ Hu Hn) as [keys Hk].
    eexists. split; [apply (new_exact now c keys Hk)|]. repeat split.
Qed.

(** X13.  An entity that the constructor returns holds every violation of the
    three rules on props, in the order "not provided", "invalid", "out of
    range", and after them what the [validate] hook of the subclass added.
    It is valid exactly when the props are not empty, are an object, have
    at most 50 keys, and the hook added nothing. *)
Theorem new_records_every_violation :
  forall now c e,
    new now c = Normal e ->
    exists keys,
      Object_keys (Entity.create_props c) = Normal keys /\
      Entity.errors e
      = rules (Entity.create_props c) keys
        ++ validate (Entity.set_errors (rules (Entity.create_props c) keys) e) /\
      ((Entity.isValid e).1 = true <->
       Guard_isEmpty (Entity.create_props c) = false /\
       typeof (Entity.create_props c) = "object" /\
       length keys <= Entity.MAX_PROPS /\
       validate (Entity.set_errors [] e) = []).
Proof.
  intros now c e Hnew.
  destruct (Object_keys (Entity.create_props c)) as [keys|t] eqn:Hk.
  2:{ unfold Entity.new, Entity.validateProps in Hnew. rewrite Hk in Hnew.
      discriminate. }
  pose proof (new_exact now c keys Hk) as Hex. cbv zeta in Hex.
  rewrite Hex in Hnew. injection Hnew as <-.
  exists keys. split; [reflexivity|]. split; [reflexivity|].
  unfold Entity.isValid, Entity.set_errors. cbn [Entity.errors Entity._id
    Entity._createdAt Entity._updatedAt Entity.props Entity.armed].
  set (base := rules (Entity.create_props c) keys).
  assert (Hbase : base = [] <->
            Guard_isEmpty (Entity.create_props c) = false /\
            typeof (Entity.create_props c) = "object" /\
            length keys <= Entity.MAX_PROPS).
  { unfold base, Reading.recorded_by_rules.
    destruct (Guard_isEmpty (Entity.create_props c)).
    { split; [discriminate|]. intros (H & _). discriminate. }
    destruct (bool_decide (typeof (Entity.create_props c) ≠ "object")) eqn:Ht.
    { apply bool_decide_eq_true in Ht. split; [discriminate|].
      intros (_ & H & _). contradiction. }
    apply bool_decide_eq_false in Ht.
    destruct (Nat.ltb Entity.MAX_PROPS (length keys)) eqn:Hl.
    { apply Nat.ltb_lt in Hl. split; [discriminate|]. intros (_ & _ & H). lia. }
    apply Nat.ltb_ge in Hl. split; [|reflexivity]. intros _.
    split; [reflexivity|]. split; [|exact Hl].
    destruct (decide (typeof (Entity.create_props c) = "object")); tauto. }
  split.
  - intros Hv.
    destruct (base ++ validate _) eqn:E; [|discriminate].
    apply app_eq_nil in E. destruct E as [Eb Ev].
    destruct (proj1 Hbase Eb) as (H1 & H2 & H3).
    repeat split; try assumption. rewrite Eb in Ev. exact Ev.
  - intros (H1 & H2 & H3 & H4).
    assert (Eb : base = []) by (apply Hbase; auto).
    rewrite Eb in *. cbn [app]. rewrite H4. reflexivity.
Qed.

(** X14.  [isValid()] on an entity without errors attaches the three methods
    and changes nothing else; it can be called again with the same
    result.  Until it has been called the methods are missing, also on an
    entity without errors: a call of them on the entity as the
    constructor returned it is a [TypeError]. *)
Theorem isValid_arms :
  (forall e,
      Entity.errors e = [] ->
      Entity.isValid e = (true, Entity.addValidEntityAttributes e) /\
      Entity.isValid (Entity.isValid e).2 = (true, (Entity.isValid e).2) /\
      Entity.id (Entity.isValid e).2 = Entity.id e /\
      Entity.props (Entity.isValid e).2 = Entity.props e /\
      Entity.errors (Entity.isValid e).2 = [] /\
      (forall object,
          Entity.equals (Entity.isValid e).2 object
          = Normal (Entity.internalEquals e object)) /\
      Entity.getPropsCopy convertPropsToObject (Entity.isValid e).2
      = Normal (Entity.internalGetPropsCopy convertPropsToObject e) /\
      Entity.toObject convertPropsToObject (Entity.isValid e).2
      = Normal (Entity.internalToObject convertPropsToObject e)) /\
  (forall now c e object,
      new now c = Normal e ->
      Entity.equals e object = Abrupt TypeError /\
      Entity.getPropsCopy convertPropsToObject e = Abrupt TypeError /\
      Entity.toObject convertPropsToObject e = Abrupt TypeError).
Proof.
  split.
  - intros e He. unfold Entity.isValid. rewrite He. cbn [length Nat.ltb Nat.leb].
    cbn [snd]. unfold Entity.isValid, Entity.addValidEntityAttributes.
    cbn [Entity.errors]. rewrite He. repeat split.
  - intros now c e object Hnew.
    assert (Ha : Entity.armed e = false).
    { destruct (Object_keys (Entity.create_props c)) as [keys|t] eqn:Hk.
      - pose proof (new_exact now c keys Hk) as Hex. cbv zeta in Hex.
        rewrite Hex in Hnew. injection Hnew as <-. reflexivity.
      - unfold Entity.new, Entity.validateProps in Hnew. rewrite Hk in Hnew.
        discriminate. }
    unfold Entity.equals, Entity.getPropsCopy, Entity.toObject. rewrite Ha.
    repeat split.
Qed.

(** X15.  On entities that [isValid()] has armed, [equals] is an equivalence:
    an entity equals itself, [a.equals(b)] and [b.equals(a)] agree, and
    equality carries over a chain.  The entity passed as argument need
    not be valid. *)
Theorem equals_is_an_equivalence :
  forall a b c,
    Entity.armed a = true ->
    Entity.equals a (Entity.ArgEntity a) = Normal true /\
    (forall b', Entity.id b' = Entity.id b ->
                Entity.equals a (Entity.ArgEntity b')
                = Entity.equals a (Entity.ArgEntity b)) /\
    (Entity.armed b = true ->
     Entity.equals a (Entity.ArgEntity b) = Entity.equals b (Entity.ArgEntity a)) /\
    (Entity.armed b = true ->
     Entity.equals a (Entity.ArgEntity b) = Normal true ->
     Entity.equals b (Entity.ArgEntity c) = Normal true ->
     Entity.equals a (Entity.ArgEntity c) = Normal true).
Proof.
  intros a b c Ha. unfold Entity.equals, Entity.internalEquals,
    Entity.strict_equals. rewrite Ha.
  split; [rewrite Nat.eqb_refl; reflexivity|].
  split; [intros b' ->; reflexivity|].
  split.
  - intros ->. rewrite Nat.eqb_sym. reflexivity.
  - intros ->. intros H1 H2. injection H1 as H1. injection H2 as H2.
    apply Nat.eqb_eq in H1, H2. f_equal. apply Nat.eqb_eq. congruence.
Qed.

(** X16.  [toObject()] and [getPropsCopy()] build an object in which each key
    stands once and in which a prop named like [id], [createdAt] or
    [updatedAt] replaces the entity's own field: the value under a key is
    that of its last binding among the three fields and then the props.
    The object lists the props whose keys are array indices first, in
    ascending order, then [id], [createdAt] and [updatedAt], then the
    other props; the three fields come first when no prop has an array index
    for its key.  Props that are an instance of a value object are copied
    as the fields of that instance, [errors] and [props], and the methods
    attached to it. *)
Theorem copies_let_props_override :
  forall e,
    Entity.armed e = true ->
    let own :=
      [("id", JInstance (Entity._id e));
       ("createdAt", JDate (Entity._createdAt e));
       ("updatedAt", JDate (Entity._updatedAt e))] in
    (exists fs indices names,
        Entity.toObject convertPropsToObject e = Normal (JObject fs) /\
        NoDup (fs.*1) /\
        Reading.key_order (fs.*1) indices
          (["id"; "createdAt"; "updatedAt"] ++ names) /\
        (Forall (fun kv => array_index kv.1 = None)
           (Entity.own_entries (convertPropsToObject (Entity.props e))) ->
         take 3 (fs.*1) = ["id"; "createdAt"; "updatedAt"]) /\
        forall k,
          lookup_field k fs =
          Reading.last_binding k
            (own ++ Entity.own_entries (convertPropsToObject (Entity.props e)))) /\
    (exists fs indices names,
        Entity.getPropsCopy convertPropsToObject e
        = Normal (convertPropsToObject (JObject fs)) /\
        NoDup (fs.*1) /\
        Reading.key_order (fs.*1) indices
          (["id"; "createdAt"; "updatedAt"] ++ names) /\
        (Forall (fun kv => array_index kv.1 = None)
           (Entity.own_entries (Entity.props e)) ->
         take 3 (fs.*1) = ["id"; "createdAt"; "updatedAt"]) /\
        (forall o,
            Entity.props e = JInstance o ->
            fs.*1 = ["id"; "createdAt"; "updatedAt"; "errors"; "props"]
                    ++ (if ValueObject.armed o then ["equals"; "unpack"] else []) /\
            lookup_field "id" fs = Some (JInstance (Entity._id e)) /\
            lookup_field "props" fs = Some (ValueObject.props o)) /\
        forall k,
          lookup_field k fs =
          Reading.last_binding k (own ++ Entity.own_entries (Entity.props e))).
Proof.
  intros e Ha own.
  unfold Entity.toObject, Entity.getPropsCopy, Entity.internalToObject,
    Entity.internalGetPropsCopy, Object_freeze. rewrite Ha.
  split.
  - destruct (ObjectLiteralFacts.object_literal_shape
                "id" (JInstance (Entity._id e))
                "createdAt" (JDate (Entity._createdAt e))
                "updatedAt" (JDate (Entity._updatedAt e))
                (Entity.own_entries (convertPropsToObject (Entity.props e))))
      as (fs & indices & names & Hfs & Hnd & Hord & Hplain & Hl);
      try discriminate; try reflexivity.
    exists fs, indices, names. rewrite Hfs.
    split; [reflexivity|]. split; [exact Hnd|]. split; [exact Hord|].
    split; [exact Hplain|exact Hl].
  - destruct (ObjectLiteralFacts.object_literal_shape
                "id" (JInstance (Entity._id e))
                "createdAt" (JDate (Entity._createdAt e))
                "updatedAt" (JDate (Entity._updatedAt e))
                (Entity.own_entries (Entity.props e)))
      as (fs & indices & names & Hfs & Hnd & Hord & Hplain & Hl);
      try discriminate; try reflexivity.
    exists fs, indices, names. rewrite Hfs.
    split; [reflexivity|]. split; [exact Hnd|]. split; [exact Hord|].
    split; [exact Hplain|]. split; [|exact Hl].
    intros o Hp. rewrite Hp in Hfs. cbn [Entity.own_entries] in Hfs.
    destruct (ValueObject.armed o); vm_compute in Hfs; injection Hfs as <-;
      repeat split.
Qed.

End Facts.

#[local] Existing Instance Fixtures.field_as_text.

Lemma new_throws_only_without_props_witness :
  Entity.new Fixtures.Guard_isEmpty Fixtures.no_rule 0
    (Entity.MkCreateEntityProps (Fixtures.an_id 1 "u-1") JUndefined None None)
  = Abrupt TypeError.
Proof.
  apply (proj1 (new_throws_only_without_props Fixtures.Guard_isEmpty
                  Fixtures.no_rule 0
                  (Entity.MkCreateEntityProps (Fixtures.an_id 1 "u-1")
                     JUndefined None None))).
  left. reflexivity.
Defined.

Lemma new_records_every_violation_witness :
  (e ← Entity.new Fixtures.Guard_isEmpty Fixtures.no_rule 0 Fixtures.wordy;
   Normal (Entity.errors e))
  = Normal [Entity.invalid; Entity.out_of_range].
Proof.
  destruct (Entity.new Fixtures.Guard_isEmpty Fixtures.no_rule 0 Fixtures.wordy)
    as [e|t] eqn:E; [|vm_compute in E; discriminate].
  destruct (new_records_every_violation Fixtures.Guard_isEmpty Fixtures.no_rule
              0 Fixtures.wordy e E) as (keys & Hk & He & _).
  cbn [mbind Completion_bind]. rewrite He.
  vm_compute in Hk. injection Hk as <-. vm_compute. reflexivity.
Defined.

Lemma isValid_arms_witness :
  Entity.isValid (Entity.isValid Fixtures.ann).2
  = (true, (Entity.isValid Fixtures.ann).2).
Proof.
  exact (proj1 (proj2 (proj1 (isValid_arms Fixtures.Guard_isEmpty
                                Fixtures.convertPropsToObject Fixtures.no_rule)
                         Fixtures.ann eq_refl))).
Defined.

Lemma equals_is_an_equivalence_witness :
  Entity.equals (Entity.isValid Fixtures.ann).2
    (Entity.ArgEntity (Entity.isValid Fixtures.twin).2)
  = Entity.equals (Entity.isValid Fixtures.twin).2
      (Entity.ArgEntity (Entity.isValid Fixtures.ann).2).
Proof.
  exact (proj1 (proj2 (proj2
    (equals_is_an_equivalence (Entity.isValid Fixtures.ann).2
       (Entity.isValid Fixtures.twin).2 Fixtures.ann eq_refl))) eq_refl).
Defined.

Lemma copies_let_props_override_witness :
  (o ← Entity.toObject Fixtures.convertPropsToObject Fixtures.shadowing;
   get_prop o "id") = Normal (JString "fake").
Proof.
  destruct (proj1 (copies_let_props_override Fixtures.convertPropsToObject
                     Fixtures.shadowing eq_refl))
    as (fs & indices & names & Hfs & _ & _ & _ & Hl).
  rewrite Hfs. cbn [mbind Completion_bind get_prop]. rewrite Hl. reflexivity.
Defined.

(** Props with the keys [name], [1] and [0], in this order: the copy lists
    [0] and [1] before the fields of the entity. *)
Example toObject_lists_indices_first :
  Entity.toObject Fixtures.convertPropsToObject Fixtures.numbered
  = Normal (JObject
              [("0", JString "a"); ("1", JString "b");
               ("id", JInstance (Fixtures.an_id 1 "u-1"));
               ("createdAt", JDate 0); ("updatedAt", JDate 0);
               ("name", JString "Ann")]).
Proof. vm_compute. reflexivity. Qed.

(** Spreading an instance copies its own fields, and the methods that
    [isValid] attached to it. *)
Example own_entries_of_an_instance :
  (Entity.own_entries (JInstance Fixtures.five_euros)).*1 = ["errors"; "props"] /\
  (Entity.own_entries
     (JInstance (ValueObject.isValid Fixtures.five_euros).2)).*1
  = ["errors"; "props"; "equals"; "unpack"] /\
  lookup_field "props" (Entity.own_entries (JInstance Fixtures.five_euros))
  = Some (ValueObject.props Fixtures.five_euros).
Proof. repeat split. Qed.

End EntityLaws.

(** ** Value objects: construction, unpacking, equality *)

Module ValueObjectLaws.

Section Facts.

Variable Guard_isEmpty : JsValue -> bool.
Variable convertPropsToObject : JsValue -> JsValue.
Variable validate : JsValue -> list ExceptionBase.
Variable JSON_stringify : ValueObjectInstance -> string.

Abbreviation new := (ValueObject.new Guard_isEmpty validate).
Abbreviation forceUnpack := (ValueObject.forceUnpack convertPropsToObject).
Abbreviation unpack := (ValueObject.unpack convertPropsToObject).
Abbreviation equals := (ValueObject.equals JSON_stringify).

Lemma isDomainPrimitive_defined v :
  v <> JUndefined -> v <> JNull ->
  exists b value,
    ValueObject.isDomainPrimitive v = Normal b /\
    get_prop v "value" = Normal value.
Proof.
  intros Hu Hn. unfold ValueObject.isDomainPrimitive, hasOwnProperty.
  destruct (EntityLaws.Object_keys_defined v Hu Hn) as [keys ->].
  destruct v; try contradiction; simpl; eauto.
Qed.

Lemma checkIfEmpty_defined props :
  Guard_isEmpty JUndefined = true ->
  Guard_isEmpty JNull = true ->
  exists empty : bool,
    ValueObject.checkIfEmpty Guard_isEmpty props []
    = Normal (if empty then [ValueObject.cannot_be_empty] else []) /\
    (empty = false <->
     Guard_isEmpty props = false /\
     (ValueObject.isDomainPrimitive props = Normal true ->
      exists value, get_prop props "value" = Normal value /\
                    Guard_isEmpty value = false)).
Proof.
  intros Hu Hn. unfold ValueObject.checkIfEmpty.
  destruct (Guard_isEmpty props) eqn:HG.
  { exists true. split; [reflexivity|]. split; [discriminate|].
    intros [H _]. discriminate. }
  assert (Hnu : props <> JUndefined) by (intros ->; congruence).
  assert (Hnn : props <> JNull) by (intros ->; congruence).
  destruct (isDomainPrimitive_defined props Hnu Hnn) as (b & value & Hb & Hv).
  rewrite Hb. cbn [mbind Completion_bind].
  destruct b.
  - rewrite Hv. cbn [mbind Completion_bind].
    exists (Guard_isEmpty value). split; [reflexivity|].
    split.
    + intros Hf. split; [reflexivity|]. intros _. exists value. auto.
    + intros [_ H]. destruct (H eq_refl) as (value' & Hv' & HG').
      congruence.
  - exists false. split; [reflexivity|]. split; [|reflexivity].
    intros _. split; [reflexivity|]. discriminate.
Qed.

(** X17.  With a guard for which [undefined] and [null] are empty, the
    constructor of a value object never throws, whatever it is given: it
    returns the object with the props as given, and the object has no
    error exactly when the props are not empty, the [value] of a
    primitive-wrapped object is not empty, and the [validate] hook of the
    subclass added nothing. *)
Theorem new_never_throws :
  Guard_isEmpty JUndefined = true ->
  Guard_isEmpty JNull = true ->
  forall l props,
    exists o,
      new l props = Normal o /\
      ValueObject.self o = l /\
      ValueObject.props o = props /\
      ValueObject.armed o = false /\
      (ValueObject.errors o = [] <->
       Guard_isEmpty props = false /\
       (ValueObject.isDomainPrimitive props = Normal true ->
        exists value, get_prop props "value" = Normal value /\
                      Guard_isEmpty value = false) /\
       validate props = []).
Proof.
  intros Hu Hn l props.
  destruct (checkIfEmpty_defined props Hu Hn) as (empty & Hc & Hiff).
  unfold ValueObject.new. rewrite Hc. cbn [mbind Completion_bind].
  rewrite ValueObjectSpec.foldl_addError.
  eexists. split; [reflexivity|]. cbn [ValueObject.self ValueObject.props
    ValueObject.armed ValueObject.errors]. repeat split.
  - destruct empty; [discriminate|]. apply Hiff. reflexivity.
  - destruct empty; [discriminate|]. apply Hiff. reflexivity.
  - destruct empty; [discriminate|]. exact H.
  - intros (H1 & H2 & H3). rewrite H3, app_nil_r.
    destruct empty; [|reflexivity].
    assert (true = false) by (apply Hiff; auto). discriminate.
Qed.

(** X18.  [forceUnpack()] needs no [isValid()] before it, and agrees with it:
    on an object without errors [isValid()] is true and [forceUnpack()]
    returns what [unpack()] returns once [isValid()] has attached it; on
    an object with errors [isValid()] is false and leaves the object as
    it was, and [forceUnpack()] throws.  On an object that [isValid()]
    never armed, [unpack()] is a [TypeError]. *)
Theorem forceUnpack_agrees_with_isValid :
  forall o,
    (ValueObject.errors o = [] ->
     (ValueObject.isValid o).1 = true /\
     unpack (ValueObject.isValid o).2 = forceUnpack o /\
     ValueObject.errors (ValueObject.isValid o).2 = [] /\
     ValueObject.props (ValueObject.isValid o).2 = ValueObject.props o) /\
    (ValueObject.errors o <> [] ->
     ValueObject.isValid o = (false, o) /\
     forceUnpack o = Abrupt (ThrowErrors (ValueObject.errors o))) /\
    (ValueObject.armed o = false ->
     unpack o = Abrupt TypeError /\
     forall vo, equals o vo = Abrupt TypeError).
Proof.
  intros o. split; [|split].
  - intros He. unfold ValueObject.isValid. rewrite He. cbn [length Nat.ltb Nat.leb].
    cbn [fst snd]. split; [reflexivity|].
    rewrite (ValueObjectSpec.forceUnpack_no_error convertPropsToObject o He).
    unfold ValueObject.unpack, ValueObject.addValidValueObjectAttributes,
      ValueObject.internalUnpack. cbn [ValueObject.armed ValueObject.props
      ValueObject.errors]. repeat split. exact He.
  - intros He. split.
    + unfold ValueObject.isValid.
      destruct (ValueObject.errors o); [contradiction|reflexivity].
    + apply ValueObjectSpec.forceUnpack_errors. exact He.
  - intros Ha. unfold ValueObject.unpack, ValueObject.equals. rewrite Ha.
    split; [reflexivity|]. intros vo. reflexivity.
Qed.

(** X19.  On a value object that [isValid()] has armed, [equals] compares the
    serializations and nothing else: it answers true exactly when the
    object and its argument serialize to the same text, false when the
    two texts differ, and false for [null] and [undefined].  So it is an
    equivalence, and it does not look at which object it is given. *)
Theorem equals_is_structural :
  forall a b c,
    ValueObject.armed a = true ->
    equals a (ValueObject.ArgValueObject b)
    = Normal (bool_decide (JSON_stringify a = JSON_stringify b)) /\
    (equals a (ValueObject.ArgValueObject b) = Normal true <->
     JSON_stringify a = JSON_stringify b) /\
    (JSON_stringify a <> JSON_stringify b ->
     equals a (ValueObject.ArgValueObject b) = Normal false) /\
    equals a (ValueObject.ArgValueObject a) = Normal true /\
    equals a ValueObject.ArgNull = Normal false /\
    equals a ValueObject.ArgUndefined = Normal false /\
    (JSON_stringify a = JSON_stringify b ->
     equals a (ValueObject.ArgValueObject b) = Normal true) /\
    (ValueObject.armed b = true ->
     equals a (ValueObject.ArgValueObject b)
     = equals b (ValueObject.ArgValueObject a)) /\
    (ValueObject.armed b = true ->
     equals a (ValueObject.ArgValueObject b) = Normal true ->
     equals b (ValueObject.ArgValueObject c) = Normal true ->
     equals a (ValueObject.ArgValueObject c) = Normal true).
Proof.
  intros a b c Ha. unfold ValueObject.equals, ValueObject.internalEquals.
  rewrite Ha.
  split; [reflexivity|].
  split.
  { split.
    - intros H. injection H as H. apply bool_decide_eq_true in H. exact H.
    - intros H. rewrite bool_decide_eq_true_2 by exact H. reflexivity. }
  split; [intros H; rewrite bool_decide_eq_false_2 by exact H; reflexivity|].
  split; [rewrite bool_decide_eq_true_2 by reflexivity; reflexivity|].
  split; [reflexivity|]. split; [reflexivity|].
  split; [intros H; rewrite bool_decide_eq_true_2 by exact H; reflexivity|].
  split.
  - intros ->. f_equal. apply bool_decide_ext. split; congruence.
  - intros ->. intros H1 H2. injection H1 as H1. injection H2 as H2.
    apply bool_decide_eq_true in H1, H2. f_equal.
    apply bool_decide_eq_true. congruence.
Qed.

(** X20.  Props with an own key [value] make a domain primitive, whatever other
    keys they have: an empty [value] is recorded as an error although the
    props are not empty, and unpacking returns the [value] alone, the
    other fields dropped and [convertPropsToObject] not consulted. *)
Theorem value_key_makes_a_primitive :
  forall fields value,
    lookup_field "value" fields = Some value ->
    (forall l,
        Guard_isEmpty value = true ->
        exists o,
          new l (JObject fields) = Normal o /\
          ValueObject.cannot_be_empty ∈ ValueObject.errors o /\
          (ValueObject.isValid o).1 = false) /\
    (forall o convert,
        ValueObject.props o = JObject fields ->
        ValueObject.internalUnpack convert o = Normal value /\
        (ValueObject.errors o = [] ->
         ValueObject.forceUnpack convert o = Normal value)).
Proof.
  intros fields value Hv. split.
  - intros l HG. unfold ValueObject.new, ValueObject.checkIfEmpty,
      ValueObject.isDomainPrimitive.
    rewrite (ValueObjectSpec.hasOwnProperty_field _ _ _ Hv).
    assert (Hc : (if Guard_isEmpty (JObject fields) then Normal true
                  else (Normal true ≫= fun primitive : bool =>
                        if primitive
                        then get_prop (JObject fields) "value" ≫= fun value =>
                             Normal (Guard_isEmpty value)
                        else Normal false)) = Normal true).
    { destruct (Guard_isEmpty (JObject fields)); [reflexivity|].
      cbn [mbind Completion_bind get_prop]. rewrite Hv. cbn [default from_option id].
      rewrite HG. reflexivity. }
    rewrite Hc. cbn [mbind Completion_bind].
    rewrite ValueObjectSpec.foldl_addError.
    eexists. split; [reflexivity|]. cbn [ValueObject.errors]. split.
    + unfold ValueObject.addError. cbn [app]. apply list_elem_of_here.
    + unfold ValueObject.isValid. reflexivity.
  - intros o convert Hp.
    pose proof (ValueObjectSpec.internalUnpack_primitive convert o fields value
                  Hp Hv) as Hi.
    split; [exact Hi|]. intros He.
    rewrite (ValueObjectSpec.forceUnpack_no_error convert o He). exact Hi.
Qed.

End Facts.

Lemma new_never_throws_witness :
  is_normal (ValueObject.new Fixtures.Guard_isEmpty Fixtures.no_rule 5 JUndefined)
  = true.
Proof.
  destruct (new_never_throws Fixtures.Guard_isEmpty Fixtures.no_rule
              eq_refl eq_refl 5 JUndefined) as (o & -> & _).
  reflexivity.
Defined.

Lemma forceUnpack_agrees_with_isValid_witness :
  ValueObject.unpack Fixtures.convertPropsToObject
    (ValueObject.isValid (Fixtures.an_id 1 "u-1")).2
  = ValueObject.forceUnpack Fixtures.convertPropsToObject (Fixtures.an_id 1 "u-1").
Proof.
  exact (proj1 (proj2 (proj1
    (forceUnpack_agrees_with_isValid Fixtures.convertPropsToObject
       Fixtures.JSON_stringify (Fixtures.an_id 1 "u-1")) eq_refl))).
Defined.

Lemma equals_is_structural_witness :
  ValueObject.equals Fixtures.JSON_stringify
    (ValueObject.isValid (Fixtures.an_id 1 "u-1")).2
    (ValueObject.ArgValueObject (Fixtures.an_id 2 "u-1"))
  = Normal true /\
  ValueObject.equals Fixtures.JSON_stringify
    (ValueObject.isValid (Fixtures.an_id 1 "u-1")).2
    (ValueObject.ArgValueObject (Fixtures.an_id 2 "u-2"))
  = Normal false /\
  ValueObject.equals Fixtures.JSON_stringify
    (ValueObject.isValid (Fixtures.an_id 1 "u-1")).2
    (ValueObject.ArgValueObject Fixtures.a_rejected_id)
  = Normal false.
Proof.
  split; [|split].
  - apply (proj2 (proj1 (proj2
      (equals_is_structural Fixtures.JSON_stringify
         (ValueObject.isValid (Fixtures.an_id 1 "u-1")).2
         (Fixtures.an_id 2 "u-1") (Fixtures.an_id 2 "u-1") eq_refl)))).
    reflexivity.
  - apply (proj1 (proj2 (proj2
      (equals_is_structural Fixtures.JSON_stringify
         (ValueObject.isValid (Fixtures.an_id 1 "u-1")).2
         (Fixtures.an_id 2 "u-2") (Fixtures.an_id 2 "u-2") eq_refl)))).
    vm_compute. discriminate.
  - apply (proj1 (proj2 (proj2
      (equals_is_structural Fixtures.JSON_stringify
         (ValueObject.isValid (Fixtures.an_id 1 "u-1")).2
         Fixtures.a_rejected_id Fixtures.a_rejected_id eq_refl)))).
    vm_compute. discriminate.
Defined.

(** What the serializer writes for an id, and for one that was rejected. *)
Example JSON_stringify_of_an_id :
  Fixtures.JSON_stringify (Fixtures.an_id 1 "u-1")
  = "{" +:+ Fixtures.quoted "errors" +:+ ":[]," +:+ Fixtures.quoted "props"
    +:+ ":{" +:+ Fixtures.quoted "value" +:+ ":" +:+ Fixtures.quoted "u-1" +:+ "}}" /\
  Fixtures.JSON_stringify Fixtures.a_rejected_id
  = "{" +:+ Fixtures.quoted "errors" +:+ ":[" +:+ Fixtures.quoted "Id is not a uuid"
    +:+ "]," +:+ Fixtures.quoted "props"
    +:+ ":{" +:+ Fixtures.quoted "value" +:+ ":" +:+ Fixtures.quoted "u-1" +:+ "}}".
Proof. split; reflexivity. Qed.

Lemma value_key_makes_a_primitive_witness :
  (o ← ValueObject.new Fixtures.Guard_isEmpty Fixtures.no_rule 6
         (JObject [("unit", JString "kg"); ("value", JString "")]);
   Normal (ValueObject.isValid o).1) = Normal false.
Proof.
  destruct (proj1 (value_key_makes_a_primitive Fixtures.Guard_isEmpty
                     Fixtures.no_rule
                     [("unit", JString "kg"); ("value", JString "")]
                     (JString "") eq_refl) 6 eq_refl) as (o & -> & _ & Hv).
  cbn [mbind Completion_bind]. rewrite Hv. reflexivity.
Defined.

End ValueObjectLaws.

(** ** Domain and integration events: construction, primitives *)

Module EventLaws.

Section Facts.

Context {opaque : OpaqueFields}.

Variable Guard_isEmpty : JsValue -> bool.
Variable convertPropsToObject : JsValue -> JsValue.
Variable Event_new : JsValue -> Completion (JsValue * JsValue).

Abbreviation new_domain :=
  (DomainEvent.new Guard_isEmpty convertPropsToObject Event_new).
Abbreviation new_integration :=
  (IntegrationEvent.new Guard_isEmpty convertPropsToObject Event_new).
Abbreviation forceUnpack := (ValueObject.forceUnpack convertPropsToObject).

Lemma call_forceUnpack_Normal v u :
  DomainEvent.call_forceUnpack convertPropsToObject v = Normal u ->
  exists o, v = JInstance o /\ ValueObject.errors o = [] /\ forceUnpack o = Normal u.
Proof.
  destruct v; simpl; try discriminate. intros H. exists o.
  split; [reflexivity|]. split; [|exact H].
  unfold ValueObject.forceUnpack in H.
  destruct (ValueObject.errors o); [reflexivity|discriminate].
Qed.

(** X21.  A domain event that the constructor returns is not committed; its
    [aggregateId] is what the id object of the props unpacks to, and that
    id had no validation error; the props were not empty.  When the id
    has validation errors the constructor throws the list of them, and
    when the props name no id object it is a [TypeError]. *)
Theorem new_domain_event :
  forall chain fields props,
    (forall ev,
        new_domain chain fields props = Normal ev ->
        DomainEvent.isCommitted ev = false /\
        DomainEvent.class_chain ev = chain /\
        DomainEvent.payload ev = fields /\
        Guard_isEmpty props = false /\
        exists o,
          get_prop props "aggregateId" = Normal (JInstance o) /\
          ValueObject.errors o = [] /\
          forceUnpack o = Normal (DomainEvent.aggregateId ev)) /\
    (forall m base a,
        get_prop props "metadata" = Normal m ->
        Event_new (JObject [("metadata", m)]) = Normal base ->
        Guard_isEmpty props = false ->
        get_prop props "aggregateId" = Normal a ->
        (forall o, a = JInstance o -> ValueObject.errors o <> [] ->
                   new_domain chain fields props
                   = Abrupt (ThrowErrors (ValueObject.errors o))) /\
        ((forall o, a <> JInstance o) ->
         new_domain chain fields props = Abrupt TypeError)).
Proof.
  intros chain fields props. split.
  - intros ev. unfold DomainEvent.new.
    destruct (get_prop props "metadata") as [m|]; [|discriminate].
    cbn [mbind Completion_bind].
    destruct (Event_new _) as [base|]; [|discriminate].
    cbn [mbind Completion_bind].
    destruct (Guard_isEmpty props); [discriminate|].
    destruct (get_prop props "aggregateId") as [a|]; [|discriminate].
    cbn [mbind Completion_bind].
    destruct (DomainEvent.call_forceUnpack convertPropsToObject a) as [u|] eqn:Hu;
      [|discriminate].
    cbn [mbind Completion_bind]. intros H. injection H as <-.
    destruct (call_forceUnpack_Normal _ _ Hu) as (o & -> & He & Hf).
    repeat split. exists o. auto.
  - intros m base a Hm Hb HG Ha. unfold DomainEvent.new.
    rewrite Hm. cbn [mbind Completion_bind]. rewrite Hb.
    cbn [mbind Completion_bind]. rewrite HG, Ha. cbn [mbind Completion_bind].
    split.
    + intros o -> He. cbn [DomainEvent.call_forceUnpack].
      rewrite (ValueObjectSpec.forceUnpack_errors convertPropsToObject o He).
      reflexivity.
    + intros Hno. destruct a; try reflexivity. exfalso. eapply Hno. reflexivity.
Qed.

(** X22.  An integration event needs the id object before anything else: props
    that name no id object, the empty bag among them, end in a
    [TypeError] whatever [Guard.isEmpty] answers, never in the "not
    provided" exception; and an event that the constructor returns was
    built from an id without validation errors. *)
Theorem new_integration_event :
  forall chain props,
    ((forall o, get_prop props "id" <> Normal (JInstance o)) ->
     new_integration chain props = Abrupt TypeError) /\
    new_integration chain (JObject []) = Abrupt TypeError /\
    (forall ev,
        new_integration chain props = Normal ev ->
        Guard_isEmpty props = false /\
        IntegrationEvent.class_chain ev = chain /\
        IntegrationEvent.key ev = default JUndefined
                                    (match props with
                                     | JObject bag => lookup_field "key" bag
                                     | _ => None
                                     end) /\
        exists o u,
          get_prop props "id" = Normal (JInstance o) /\
          ValueObject.errors o = [] /\
          forceUnpack o = Normal u).
Proof.
  intros chain props. split; [|split].
  - intros Hno. unfold IntegrationEvent.new.
    destruct (get_prop props "id") as [i|t] eqn:Hi.
    + cbn [mbind Completion_bind].
      destruct i; try reflexivity. exfalso. eapply Hno. reflexivity.
    + destruct props; simpl in Hi; try discriminate; injection Hi as <-;
        reflexivity.
  - reflexivity.
  - intros ev. unfold IntegrationEvent.new.
    destruct (get_prop props "id") as [i|] eqn:Hi; [|discriminate].
    cbn [mbind Completion_bind].
    destruct (DomainEvent.call_forceUnpack convertPropsToObject i) as [u|] eqn:Hu;
      [|discriminate].
    cbn [mbind Completion_bind].
    destruct (get_prop props "metadata") as [m|]; [|discriminate].
    cbn [mbind Completion_bind].
    destruct (Event_new _) as [base|]; [|discriminate].
    cbn [mbind Completion_bind].
    destruct (Guard_isEmpty props); [discriminate|].
    destruct (get_prop props "key") as [k|] eqn:Hk; [|discriminate].
    cbn [mbind Completion_bind]. intros H. injection H as <-.
    destruct (call_forceUnpack_Normal _ _ Hu) as (o & -> & He & Hf).
    split; [reflexivity|]. split; [reflexivity|]. split.
    + cbn [IntegrationEvent.key].
      destruct props; simpl in Hk; try discriminate; injection Hk as <-;
        reflexivity.
    + exists o, u. auto.
Qed.

(** X23.  [toPrimitives()] builds an object in which each key stands once
    and in which a payload field named like [id], [aggregateId] or
    [metadata] replaces it.  The object lists the payload fields whose
    keys are array indices first, in ascending order, then [id],
    [aggregateId] and [metadata], then the rest of the payload; the three
    come first when no payload key is an array index, and they are all
    there is when the subclass has no primitives. *)
Theorem toPrimitives_shape :
  forall getPrimitives ev,
    let own :=
      [("id", DomainEvent.id ev);
       ("aggregateId", DomainEvent.aggregateId ev);
       ("metadata", DomainEvent.metadata ev)] in
    exists fs indices names,
      DomainEvent.toPrimitives getPrimitives ev = JObject fs /\
      NoDup (fs.*1) /\
      Reading.key_order (fs.*1) indices (["id"; "aggregateId"; "metadata"] ++ names) /\
      (Forall (fun kv => array_index kv.1 = None)
         (Entity.own_entries (getPrimitives ev)) ->
       take 3 (fs.*1) = ["id"; "aggregateId"; "metadata"]) /\
      (forall k,
          lookup_field k fs =
          Reading.last_binding k (own ++ Entity.own_entries (getPrimitives ev))) /\
      (Entity.own_entries (getPrimitives ev) = [] ->
       fs = own).
Proof.
  intros getPrimitives ev own. unfold DomainEvent.toPrimitives. fold own.
  destruct (ObjectLiteralFacts.object_literal_shape
              "id" (DomainEvent.id ev)
              "aggregateId" (DomainEvent.aggregateId ev)
              "metadata" (DomainEvent.metadata ev)
              (Entity.own_entries (getPrimitives ev)))
    as (fs & indices & names & Hfs & Hnd & Hord & Hplain & Hl);
    try discriminate; try reflexivity.
  fold own in Hfs, Hl.
  exists fs, indices, names. split; [exact Hfs|]. split; [exact Hnd|].
  split; [exact Hord|]. split; [exact Hplain|]. split; [exact Hl|].
  intros He. rewrite He in Hfs. vm_compute in Hfs. injection Hfs as <-.
  reflexivity.
Qed.

End Facts.

#[local] Existing Instance Fixtures.field_as_text.

Lemma new_domain_event_witness :
  DomainEvent.new Fixtures.Guard_isEmpty Fixtures.convertPropsToObject
    Fixtures.Event_new ["Deposited"; "DomainEvent"; "Event"] []
    (JObject [("aggregateId", JInstance Fixtures.an_empty_id)])
  = Abrupt (ThrowErrors [ValueObject.cannot_be_empty]).
Proof.
  apply (proj1 (proj2 (new_domain_event Fixtures.Guard_isEmpty
                         Fixtures.convertPropsToObject Fixtures.Event_new
                         ["Deposited"; "DomainEvent"; "Event"] []
                         (JObject [("aggregateId", JInstance Fixtures.an_empty_id)]))
                  JUndefined (JString "event-1", JUndefined)
                  (JInstance Fixtures.an_empty_id)
                  eq_refl eq_refl eq_refl eq_refl)
           Fixtures.an_empty_id eq_refl).
  discriminate.
Defined.

Lemma new_integration_event_witness :
  IntegrationEvent.new Fixtures.Guard_isEmpty Fixtures.convertPropsToObject
    Fixtures.Event_new ["AccountOpened"; "IntegrationEvent"; "Event"]
    (JObject [("key", JString "k")])
  = Abrupt TypeError.
Proof.
  apply (proj1 (new_integration_event Fixtures.Guard_isEmpty
                  Fixtures.convertPropsToObject Fixtures.Event_new
                  ["AccountOpened"; "IntegrationEvent"; "Event"]
                  (JObject [("key", JString "k")]))).
  intros o H. discriminate.
Defined.

(** A payload with the keys [note] and [7], in this order: the primitives
    list [7] before the fields of the event. *)
Example toPrimitives_lists_indices_first :
  DomainEvent.toPrimitives Fixtures.getPrimitives Fixtures.annotated
  = JObject
      [("7", JNumber 7); ("id", JString "e1");
       ("aggregateId", JString "account-1"); ("metadata", JUndefined);
       ("note", JString "cash")].
Proof. vm_compute. reflexivity. Qed.

(** An integration event built from an id and a key. *)
Example new_account_opened :
  IntegrationEvent.new Fixtures.Guard_isEmpty Fixtures.convertPropsToObject
    Fixtures.Event_new ["AccountOpened"; "IntegrationEvent"; "Event"]
    (JObject [("id", JInstance (Fixtures.an_id 3 "i-1")); ("key", JString "k")])
  = Normal (IntegrationEvent.MkIntegrationEvent
              ["AccountOpened"; "IntegrationEvent"; "Event"]
              (JString "event-1") JUndefined (JString "k")).
Proof. reflexivity. Qed.

End EventLaws.

(** ** The option helper *)

Module UtilsLaws.

Section Facts.

Variable T : Type.
Variable Guard_isEmpty : JsValue -> bool.
Variable Option_of_value : JsValue -> option JsValue.
Variable Option_of_instance : T -> option T.
Variable classParameter : JsValue -> Completion T.

Abbreviation getOptionFromClass :=
  (Utils.getOptionFromClass T Guard_isEmpty Option_of_value Option_of_instance
     classParameter).

(** X24.  [getOptionFromClass] answers [None] without running the constructor
    on [undefined] and on the empty string, whatever the guard and
    [Option] say, and these two are the only values that
    [isDefinedAndNotEmpty] refuses ([null] passes it).  With a guard for
    which these two are empty, that third test never decides: the result
    is [None] when the guard or [Option] refuses the value, and otherwise
    the [Option] of the instance that the constructor builds. *)
Theorem getOptionFromClass_spec :
  (forall v, Utils.isDefinedAndNotEmpty v = false <->
             v = JUndefined \/ v = JString "") /\
  getOptionFromClass JUndefined = Normal None /\
  getOptionFromClass (JString "") = Normal None /\
  (Guard_isEmpty JUndefined = true ->
   Guard_isEmpty (JString "") = true ->
   forall v,
     getOptionFromClass v =
     if Guard_isEmpty v || bool_decide (Option_of_value v = None)
     then Normal None
     else classParameter v ≫= fun instance => Normal (Option_of_instance instance)).
Proof.
  assert (Hd : forall v, Utils.isDefinedAndNotEmpty v = false <->
                         v = JUndefined \/ v = JString "").
  { intros v. unfold Utils.isDefinedAndNotEmpty.
    destruct v; simpl; try (split; [discriminate|intros [H|H]; discriminate]).
    - split; auto.
    - destruct (decide (s = "")) as [->|Hne].
      + split; auto.
      + rewrite bool_decide_eq_false_2 by exact Hne. simpl.
        split; [discriminate|]. intros [H|H]; [discriminate|].
        injection H as ->. contradiction. }
  split; [exact Hd|].
  split; [unfold Utils.getOptionFromClass; cbn; rewrite !orb_true_r; reflexivity|].
  split; [unfold Utils.getOptionFromClass; cbn; rewrite !orb_true_r; reflexivity|].
  intros Hu He v. unfold Utils.getOptionFromClass.
  destruct (Utils.isDefinedAndNotEmpty v) eqn:E.
  - cbn [negb]. rewrite orb_false_r. reflexivity.
  - apply Hd in E. destruct E as [->| ->].
    + rewrite Hu. reflexivity.
    + rewrite He. reflexivity.
Qed.

End Facts.

Lemma getOptionFromClass_spec_witness :
  Utils.getOptionFromClass JsValue Fixtures.Guard_isEmpty
    (Fixtures.Option_of Fixtures.nullish) (Fixtures.Option_of Fixtures.nullish)
    Fixtures.Email (JString "ann@example.org")
  = Normal (Some (JObject [("value", JString "ann@example.org")])).
Proof.
  rewrite (proj2 (proj2 (proj2
    (getOptionFromClass_spec JsValue Fixtures.Guard_isEmpty
       (Fixtures.Option_of Fixtures.nullish) (Fixtures.Option_of Fixtures.nullish)
       Fixtures.Email))) eq_refl eq_refl).
  reflexivity.
Defined.

End UtilsLaws.
